(** * TurboTrader-AI: signal scoring and position ledger

    A shallow embedding of [indicators.py] (class [TechnicalIndicators]),
    [binance_connector.py] (the three connector methods the executor calls)
    and [executor.py] (class [OrderExecutor]).

    Numbers.  The Python code computes on IEEE doubles (numpy [float64]
    arrays and Python floats).  In the main development every float is a
    real number of the Standard Library and every operation is exact; the
    theorems stated there are the ones that rounding does not change.
    Where rounding decides what the code does (the test [std == 0], the
    last bit of a weighted mean) the module [Binary64] evaluates the same
    expressions on binary64 floats.  Integer parameters ([lookback],
    [period]) are natural numbers.  One-dimensional numpy arrays are
    lists. *)

From Stdlib Require Import String Reals List Lra Lia Arith Bool ZArith.
From Stdlib Require PrimFloat.
Import ListNotations.

Open Scope R_scope.

(** ** Python values that the code relies on *)

Module Py.

(** The exceptions the modelled code can meet. [ProviderError] stands for
    whatever the exchange library raises.  [AlreadyOpenError] and
    [NoOpenPositionError] are the state violations named by the
    specification; no statement of the code raises them. *)
Inductive exn : Type :=
| IndexError
| KeyError
| ZeroDivisionError
| ProviderError
| AlreadyOpenError
| NoOpenPositionError.

(** Outcome of evaluating a Python expression. *)
Inductive result (A : Type) : Type :=
| Ok (a : A)
| Raise (e : exn).

Arguments Ok {A} a.
Arguments Raise {A} e.

Definition rbind {A B : Type} (r : result A) (k : A -> result B) : result B :=
  match r with
  | Ok a => k a
  | Raise e => Raise e
  end.

Notation "x <- c ;; k" := (rbind c (fun x => k))
  (at level 61, c at next level, right associativity).

(** [a[-1]]: the last element, [IndexError] on an empty array. *)
Fixpoint item_last {A : Type} (a : list A) : result A :=
  match a with
  | [] => Raise IndexError
  | [x] => Ok x
  | _ :: t => item_last t
  end.

(** [a[-k:]].  Since [-0 = 0], [a[-0:]] is the whole array; a [k] larger
    than the length also gives the whole array. *)
Definition slice_last {A : Type} (k : nat) (a : list A) : list A :=
  if (k =? 0)%nat then a else skipn (length a - k) a.

(** [a[:k]] and [a[1:]]. *)
Definition slice_first {A : Type} (k : nat) (a : list A) : list A := firstn k a.
Definition slice_from1 {A : Type} (a : list A) : list A := tl a.

(** [a[i] = v] on an array, for an index in range (the only use in the code
    is guarded by [len(closes) >= period + 1]). *)
Fixpoint setitem {A : Type} (a : list A) (i : nat) (v : A) : list A :=
  match a, i with
  | [], _ => []
  | _ :: t, O => v :: t
  | x :: t, S j => x :: setitem t j v
  end.

End Py.

Import Py.

(** ** The numpy functions used by [indicators.py] *)

Module NumPy.

Definition array := list R.

Definition np_sum (a : array) : R := fold_left Rplus a 0.

Definition np_mean (a : array) : R := np_sum a / INR (length a).

(** [np.std]: population standard deviation, [sqrt(mean(|a - mean(a)|^2))]. *)
Definition np_std (a : array) : R :=
  let m := np_mean a in
  sqrt (np_mean (map (fun x => (x - m) * (x - m)) a)).

Definition np_full (n : nat) (v : R) : array := repeat v n.

Definition np_full_like (a : array) (v : R) : array := map (fun _ => v) a.

Definition np_zeros_like (a : array) : array := np_full_like a 0.

(** [np.diff(a)[i] = a[i+1] - a[i]]. *)
Fixpoint np_diff (a : array) : array :=
  match a with
  | x :: ((y :: _) as t) => (y - x) :: np_diff t
  | _ => []
  end.

(** [np.roll(a, 1)]: shift right by one, the last element wraps around. *)
Definition np_roll1 (a : array) : array :=
  match a with
  | [] => []
  | _ :: _ => last a 0 :: removelast a
  end.

(** Element-wise binary operation on arrays of equal length. *)
Fixpoint zip_with (f : R -> R -> R) (a b : array) : array :=
  match a, b with
  | x :: a', y :: b' => f x y :: zip_with f a' b'
  | _, _ => []
  end.

Definition np_divide (a b : array) : array := zip_with Rdiv a b.

(** [np.where(c, a, 0)] with a condition on the element itself. *)
Definition where_pos (a : array) : array :=
  map (fun d => if Rlt_dec 0 d then d else 0) a.

Definition where_neg (a : array) : array :=
  map (fun d => if Rlt_dec d 0 then - d else 0) a.

End NumPy.

Import NumPy.

(** ** indicators.py *)

Module Indicators.

(** The attributes set by [TechnicalIndicators.__init__]. *)
Record TechnicalIndicators : Type := {
  lookback : nat;
  sigmoid_k : R;
  vol_period : nat;
  rsi_period : nat
}.

(** [TechnicalIndicators()] with the default arguments. *)
Definition default_indicators : TechnicalIndicators :=
  {| lookback := 100; sigmoid_k := 1; vol_period := 20; rsi_period := 14 |}.

Definition sigmoid_normalize (self : TechnicalIndicators) (data : array) : array :=
  if (length data <? 2)%nat then data
  else
    let mean := np_mean data in
    let std := np_std data in
    if Req_dec_T std 0 then np_full_like data 50
    else
      let z_score := map (fun x => (x - mean) / std) data in
      let sigmoid := map (fun z => 1 / (1 + exp (- sigmoid_k self * z))) z_score in
      map (fun s => s * 100) sigmoid.

(** [1e-10], the constant added to the average loss. *)
Definition eps : R := / 10000000000.

(** One turn of the loop of [calculate_rsi]: Wilder's recurrence at index [i]. *)
Definition rsi_step (period : nat) (gains losses : array)
    (st : array * array) (i : nat) : array * array :=
  let '(avg_gains, avg_losses) := st in
  (setitem avg_gains i
     ((nth (i - 1) avg_gains 0 * (INR period - 1) + nth (i - 1) gains 0) / INR period),
   setitem avg_losses i
     ((nth (i - 1) avg_losses 0 * (INR period - 1) + nth (i - 1) losses 0) / INR period)).

(** The two arrays [avg_gains], [avg_losses] after the seeding and the loop. *)
Definition rsi_averages (closes : array) (period : nat) : array * array :=
  let deltas := np_diff closes in
  let gains := where_pos deltas in
  let losses := where_neg deltas in
  let avg_gains := setitem (np_zeros_like closes) period (np_mean (slice_first period gains)) in
  let avg_losses := setitem (np_zeros_like closes) period (np_mean (slice_first period losses)) in
  fold_left (rsi_step period gains losses)
    (seq (period + 1) (length closes - (period + 1)))
    (avg_gains, avg_losses).

Definition calculate_rsi (closes : array) (period : nat) : array :=
  if (length closes <? period + 1)%nat then np_full_like closes 50
  else
    let '(avg_gains, avg_losses) := rsi_averages closes period in
    let rs := zip_with (fun g l => g / (l + eps)) avg_gains avg_losses in
    map (fun r => 100 - 100 / (1 + r)) rs.

Definition calculate_price_score (self : TechnicalIndicators) (closes : array) : result R :=
  if (length closes <? 2)%nat then Ok 50
  else
    let returns := map (fun q => q - 1) (slice_from1 (np_divide closes (np_roll1 closes))) in
    let norm_returns := sigmoid_normalize self returns in
    item_last norm_returns.

Definition calculate_volume_score (self : TechnicalIndicators) (volumes : array) : result R :=
  if (length volumes <? 2)%nat then Ok 50
  else
    let norm_volumes := sigmoid_normalize self (slice_last (lookback self) volumes) in
    item_last norm_volumes.

Definition calculate_volatility_score (self : TechnicalIndicators) (closes : array) : result R :=
  if (length closes <? 2)%nat then Ok 50
  else
    let log_returns := slice_from1 (map ln (np_divide closes (np_roll1 closes))) in
    let volatility := np_std log_returns in
    let vol_array := np_full (length log_returns) volatility in
    let norm_vol := sigmoid_normalize self vol_array in
    item_last norm_vol.

(** The dictionary [components] returned next to the combined score. *)
Record components : Type := {
  c_price : R;
  c_volume : R;
  c_rsi : R;
  c_rsi_normalized : R;
  c_volatility : R;
  c_combined : R
}.

(** [rsi[-self.lookback:]], the part of the raw RSI array that
    [calculate_combined_score] normalizes. *)
Definition rsi_window (self : TechnicalIndicators) (rsi : array) : array :=
  slice_last (lookback self) rsi.

Definition calculate_combined_score (self : TechnicalIndicators)
    (closes volumes : array)
    (price_weight volume_weight rsi_weight volatility_weight : R)
    : result (R * components) :=
  price_score <- calculate_price_score self closes ;;
  volume_score <- calculate_volume_score self volumes ;;
  let rsi := calculate_rsi closes (rsi_period self) in
  let rsi_score := sigmoid_normalize self (rsi_window self rsi) in
  volatility_score <- calculate_volatility_score self closes ;;
  let total_weight0 := price_weight + volume_weight + rsi_weight + volatility_weight in
  let total_weight := if Req_dec_T total_weight0 0 then 1 else total_weight0 in
  rsi_score_last <- item_last rsi_score ;;
  let combined :=
    (price_weight * price_score +
     volume_weight * volume_score +
     rsi_weight * rsi_score_last +
     volatility_weight * volatility_score) / total_weight in
  rsi_last <- item_last rsi ;;
  Ok (combined,
      {| c_price := price_score;
         c_volume := volume_score;
         c_rsi := rsi_last;
         c_rsi_normalized := rsi_score_last;
         c_volatility := volatility_score;
         c_combined := combined |}).

(** Vocabulary of the properties below. *)

Definition constant_series (data : array) : Prop :=
  exists c, Forall (fun x => x = c) data.

Definition in_score_range (y : R) : Prop := 0 <= y <= 100.

(** A constant series on which binary64 sums are exact: every sample is the
    same integer [z], and [len * |z|] does not exceed 2^53.  On such a
    series the float mean is [z] and the float deviation is exactly 0. *)
Definition exact_constant_series (data : array) : Prop :=
  exists z : Z,
    Forall (fun x => x = IZR z) data /\
    (Z.abs z * Z.of_nat (length data) <= 2 ^ 53)%Z.

(** An indicator object with a one-candle window and a one-step RSI,
    [TechnicalIndicators(lookback=1, rsi_period=1)]. *)
Definition narrow_indicators : TechnicalIndicators :=
  {| lookback := 1; sigmoid_k := 1; vol_period := 20; rsi_period := 1 |}.

(** Sixteen closes, enough for the default RSI period of 14. *)
Definition sixteen_closes : array :=
  [44; 45; 43; 44; 46; 47; 45; 46; 48; 49; 47; 48; 50; 51; 49; 50].

End Indicators.

(** ** Python dictionaries

    A [dict] keeps its keys in insertion order and holds each key once;
    it is modelled as an association list on which the three mutating
    operations do what Python does. *)

Module Dict.

Definition dict (V : Type) : Type := list (string * V).

(** [d.get(k)] / [d[k]] (the caller turns [None] into [KeyError]). *)
Fixpoint dict_get {V : Type} (d : dict V) (k : string) : option V :=
  match d with
  | [] => None
  | (k', v) :: d' => if String.eqb k' k then Some v else dict_get d' k
  end.

(** [k in d]. *)
Definition dict_contains {V : Type} (d : dict V) (k : string) : bool :=
  match dict_get d k with
  | Some _ => true
  | None => false
  end.

(** [d[k] = v]: an existing key keeps its place and gets the new value, a
    new key goes to the end. *)
Fixpoint dict_set {V : Type} (d : dict V) (k : string) (v : V) : dict V :=
  match d with
  | [] => [(k, v)]
  | (k', v') :: d' =>
      if String.eqb k' k then (k', v) :: d' else (k', v') :: dict_set d' k v
  end.

(** [del d[k]] for a key that is present. *)
Fixpoint dict_del {V : Type} (d : dict V) (k : string) : dict V :=
  match d with
  | [] => []
  | (k', v') :: d' => if String.eqb k' k then d' else (k', v') :: dict_del d' k
  end.

(** [list(d.keys())]. *)
Definition dict_keys {V : Type} (d : dict V) : list string := map fst d.

(** Number of entries stored under [k]. *)
Definition entries_for {V : Type} (d : dict V) (k : string) : nat :=
  length (filter (fun kv => String.eqb (fst kv) k) d).

End Dict.

Import Dict.

(** ** binance_connector.py and executor.py *)

Module Executor.

(** Values stored in the trade dictionaries. *)
Inductive value : Type :=
| VStr (s : string)
| VNum (x : R)
| VTime (t : nat).

(** A trade (and a position, which is the BUY trade itself) is a [dict]
    with string keys; so is the order returned by the exchange. *)
Definition trade : Type := dict value.
Definition order : Type := dict value.

(** What the logging calls write. *)
Inductive log_entry : Type :=
| PriceError (symbol : string) (e : exn)
| BuyOrderPlaced (symbol : string) (quantity : R) (price : option R)
| BuyOrderError (e : exn)
| SellOrderPlaced (symbol : string) (quantity : R) (price : option R)
| SellOrderError (e : exn)
| BuyExecuted (symbol : string) (quantity price : R)
| BuyFailed (e : exn)
| SellExecuted (symbol : string) (quantity price pnl pnl_percent : R)
| SellFailed (e : exn)
| CloseFailed (symbol : string) (e : exn).

(** The outside world, with state [W]: the ccxt exchange object and the
    clock.  Every call may raise and may change the world. *)
Record Environment (W : Type) : Type := {
  fetch_ticker_last : string -> W -> result R * W;
  create_limit_buy_order : string -> R -> R -> W -> result order * W;
  create_market_buy_order : string -> R -> W -> result order * W;
  create_limit_sell_order : string -> R -> R -> W -> result order * W;
  create_market_sell_order : string -> R -> W -> result order * W;
  datetime_now : W -> nat * W
}.

Arguments fetch_ticker_last {W} _ _ _.
Arguments create_limit_buy_order {W} _ _ _ _ _.
Arguments create_market_buy_order {W} _ _ _ _.
Arguments create_limit_sell_order {W} _ _ _ _ _.
Arguments create_market_sell_order {W} _ _ _ _.
Arguments datetime_now {W} _ _.

(** The attributes of an [OrderExecutor] object. *)
Record OrderExecutor : Type := {
  positions : dict trade;
  trades : list trade
}.

(** [OrderExecutor()]. *)
Definition init_executor : OrderExecutor := {| positions := []; trades := [] |}.

(** Everything a method call can read and change. *)
Record state (W : Type) : Type := {
  world : W;
  self : OrderExecutor;
  log : list log_entry
}.

Arguments world {W} _.
Arguments self {W} _.
Arguments log {W} _.
Arguments Build_state {W} _ _ _.

(** Computations that change the state and may raise; what was changed
    before an exception stays changed. *)
Definition M (W A : Type) : Type := state W -> result A * state W.

Definition ret {W A : Type} (a : A) : M W A := fun st => (Ok a, st).

Definition raise {W A : Type} (e : exn) : M W A := fun st => (Raise e, st).

Definition bind {W A B : Type} (c : M W A) (k : A -> M W B) : M W B :=
  fun st =>
    match c st with
    | (Ok a, st') => k a st'
    | (Raise e, st') => (Raise e, st')
    end.

(** [try: body  except Exception as e: handler]. *)
Definition try_except {W A : Type} (body : M W A) (handler : exn -> M W A) : M W A :=
  fun st =>
    match body st with
    | (Ok a, st') => (Ok a, st')
    | (Raise e, st') => handler e st'
    end.

Notation "x <~ c ;; k" := (bind c (fun x => k))
  (at level 61, c at next level, right associativity).
Notation "c ;;; k" := (bind c (fun _ => k))
  (at level 61, right associativity).

Definition logger {W : Type} (entry : log_entry) : M W unit :=
  fun st => (Ok tt, Build_state (world st) (self st) (log st ++ [entry])).

Definition get_self {W : Type} : M W OrderExecutor :=
  fun st => (Ok (self st), st).

Definition set_self {W : Type} (ex : OrderExecutor) : M W unit :=
  fun st => (Ok tt, Build_state (world st) ex (log st)).

(** A call into the outside world. *)
Definition call {W A : Type} (f : W -> result A * W) : M W A :=
  fun st => let '(r, w) := f (world st) in (r, Build_state w (self st) (log st)).

Definition of_option {W A : Type} (o : option A) (e : exn) : M W A :=
  match o with
  | Some a => ret a
  | None => raise e
  end.

(** [d[k]] for a float-valued field of a trade. *)
Definition getitem_num {W : Type} (d : trade) (k : string) : M W R :=
  match dict_get d k with
  | Some (VNum x) => ret x
  | _ => raise KeyError
  end.

(** One entry of the dictionary returned by [close_all_positions] is
    itself a dictionary, [{'pnl': pnl, 'order': order}]: a float under
    ['pnl'] and the order under ['order']. *)
Inductive entry_value : Type :=
| EFloat (x : R)
| EOrder (o : order).

Definition closed_entry : Type := dict entry_value.

Section Methods.

Context {W : Type} (env : Environment W).

(** *** BinanceConnector

    [if price:] is false for [None] and for [0.0]: both place a market
    order. *)

Definition get_current_price (symbol : string) : M W R :=
  try_except
    (call (fetch_ticker_last env symbol))
    (fun e => logger (PriceError symbol e) ;;; ret 0).

Definition place_buy_order (symbol : string) (quantity : R) (price : option R)
    : M W order :=
  try_except
    (order <~ (match price with
               | Some p =>
                   if Req_dec_T p 0
                   then call (create_market_buy_order env symbol quantity)
                   else call (create_limit_buy_order env symbol quantity p)
               | None => call (create_market_buy_order env symbol quantity)
               end) ;;
     logger (BuyOrderPlaced symbol quantity price) ;;;
     ret order)
    (fun e => logger (BuyOrderError e) ;;; ret []).

Definition place_sell_order (symbol : string) (quantity : R) (price : option R)
    : M W order :=
  try_except
    (order <~ (match price with
               | Some p =>
                   if Req_dec_T p 0
                   then call (create_market_sell_order env symbol quantity)
                   else call (create_limit_sell_order env symbol quantity p)
               | None => call (create_market_sell_order env symbol quantity)
               end) ;;
     logger (SellOrderPlaced symbol quantity price) ;;;
     ret order)
    (fun e => logger (SellOrderError e) ;;; ret []).

(** *** OrderExecutor *)

Definition now : M W nat :=
  fun st => let '(t, w) := datetime_now env (world st) in
            (Ok t, Build_state w (self st) (log st)).

Definition buy_trade (symbol : string) (quantity price : R) (t : nat)
    (reason : string) : trade :=
  [("symbol", VStr symbol); ("type", VStr "BUY"); ("quantity", VNum quantity);
   ("entry_price", VNum price); ("timestamp", VTime t); ("reason", VStr reason)]%string.

Definition sell_trade (symbol : string) (quantity price : R) (t : nat)
    (reason : string) : trade :=
  [("symbol", VStr symbol); ("type", VStr "SELL"); ("quantity", VNum quantity);
   ("exit_price", VNum price); ("timestamp", VTime t); ("reason", VStr reason)]%string.

(** [self.trades.append(trade)]. *)
Definition trades_append (t : trade) : M W unit :=
  ex <~ get_self ;;
  set_self {| positions := positions ex; trades := trades ex ++ [t] |}.

(** [self.positions[symbol] = trade]. *)
Definition positions_setitem (symbol : string) (t : trade) : M W unit :=
  ex <~ get_self ;;
  set_self {| positions := dict_set (positions ex) symbol t; trades := trades ex |}.

(** [del self.positions[symbol]]. *)
Definition positions_delitem (symbol : string) : M W unit :=
  ex <~ get_self ;;
  if dict_contains (positions ex) symbol
  then set_self {| positions := dict_del (positions ex) symbol; trades := trades ex |}
  else raise KeyError.

(** [self.positions[symbol]]. *)
Definition positions_getitem (symbol : string) : M W trade :=
  ex <~ get_self ;;
  of_option (dict_get (positions ex) symbol) KeyError.

(** Python float division: a zero divisor raises. *)
Definition float_div (a b : R) : M W R :=
  if Req_dec_T b 0 then raise ZeroDivisionError else ret (a / b).

Definition execute_buy (symbol : string) (quantity : R) (reason : string)
    : M W order :=
  try_except
    (price <~ get_current_price symbol ;;
     order <~ place_buy_order symbol quantity None ;;
     t <~ now ;;
     let trade := buy_trade symbol quantity price t reason in
     trades_append trade ;;;
     positions_setitem symbol trade ;;;
     logger (BuyExecuted symbol quantity price) ;;;
     ret order)
    (fun e => logger (BuyFailed e) ;;; ret []).

Definition execute_sell (symbol : string) (quantity : R) (reason : string)
    : M W order :=
  try_except
    (price <~ get_current_price symbol ;;
     order <~ place_sell_order symbol quantity None ;;
     t <~ now ;;
     let trade := sell_trade symbol quantity price t reason in
     trades_append trade ;;;
     ex <~ get_self ;;
     (if dict_contains (positions ex) symbol
      then
        pos <~ positions_getitem symbol ;;
        entry <~ getitem_num pos "entry_price" ;;
        let pnl := (price - entry) * quantity in
        ratio <~ float_div (price - entry) entry ;;
        let pnl_percent := ratio * 100 in
        logger (SellExecuted symbol quantity price pnl pnl_percent) ;;;
        positions_delitem symbol
      else ret tt) ;;;
     ret order)
    (fun e => logger (SellFailed e) ;;; ret []).

Definition get_positions : M W (dict trade) :=
  ex <~ get_self ;; ret (positions ex).

(** The body of the [for] loop of [close_all_positions] for one symbol:
    the [try] block and its handler. *)
Definition close_one (symbol : string) (closed : dict closed_entry)
    : M W (dict closed_entry) :=
  try_except
    (pos <~ positions_getitem symbol ;;
     entry <~ getitem_num pos "entry_price" ;;
     pos' <~ positions_getitem symbol ;;
     quantity <~ getitem_num pos' "quantity" ;;
     price <~ get_current_price symbol ;;
     let pnl := (price - entry) * quantity in
     order <~ execute_sell symbol quantity "Close All" ;;
     ret (dict_set closed symbol
            [("pnl", EFloat pnl); ("order", EOrder order)]%string))
    (fun e => logger (CloseFailed symbol e) ;;; ret closed).

(** The loop, over the snapshot [list(self.positions.keys())]. *)
Fixpoint close_loop (symbols : list string) (closed : dict closed_entry)
    : M W (dict closed_entry) :=
  match symbols with
  | [] => ret closed
  | symbol :: rest =>
      closed' <~ close_one symbol closed ;;
      close_loop rest closed'
  end.

Definition close_all_positions : M W (dict closed_entry) :=
  ex <~ get_self ;;
  close_loop (dict_keys (positions ex)) [].

(** A request made to the ledger. *)
Inductive request : Type :=
| Buy (symbol : string) (quantity : R) (reason : string)
| Sell (symbol : string) (quantity : R) (reason : string)
| CloseAll.

Definition serve (r : request) : M W unit :=
  match r with
  | Buy symbol quantity reason => execute_buy symbol quantity reason ;;; ret tt
  | Sell symbol quantity reason => execute_sell symbol quantity reason ;;; ret tt
  | CloseAll => close_all_positions ;;; ret tt
  end.

(** The state after a sequence of requests. *)
Fixpoint run (rs : list request) (st : state W) : state W :=
  match rs with
  | [] => st
  | r :: rs' => run rs' (snd (serve r st))
  end.

End Methods.

(** *** Vocabulary of the properties below *)

(** A position stored under [symbol] is the BUY trade that opened it. *)
Definition position_ok (kp : string * trade) : Prop :=
  exists quantity price t reason,
    snd kp = buy_trade (fst kp) quantity price t reason.

Definition ledger_wf (ex : OrderExecutor) : Prop :=
  NoDup (dict_keys (positions ex)) /\ Forall position_ok (positions ex).

(** What [get_current_price] returns for an answer of the exchange: the
    price, or 0.0 when the exchange raised. *)
Definition fetched_price (answer : result R) : R :=
  match answer with
  | Ok p => p
  | Raise _ => 0
  end.

(** What [place_buy_order] and [place_sell_order] return for an answer of
    the exchange: the order, or the empty dictionary when it raised. *)
Definition placed_order (answer : result order) : order :=
  match answer with
  | Ok o => o
  | Raise _ => []
  end.



(** The exchange refuses every sell order for [symbol]. *)
Definition sell_order_fails {W : Type} (env : Environment W) (symbol : string) : Prop :=
  forall quantity w, exists e w',
    create_market_sell_order env symbol quantity w = (Raise e, w').

(** What [close_all_positions] has to append to the trade log for one open
    position: a SELL of the position's quantity with reason "Close All". *)
Definition close_all_sell (kp : string * trade) (tr : trade) : Prop :=
  exists quantity price t,
    dict_get (snd kp) "quantity" = Some (VNum quantity) /\
    tr = sell_trade (fst kp) quantity price t "Close All".




(** The reading of the ledger contract in which a duplicate buy is rejected. *)
Definition rejects_duplicate_buy {W : Type} (env : Environment W) : Prop :=
  forall st symbol quantity reason,
    dict_contains (positions (self st)) symbol = true ->
    fst (execute_buy env symbol quantity reason st) = Raise AlreadyOpenError /\
    self (snd (execute_buy env symbol quantity reason st)) = self st.

(** The reading in which a sell without a position is rejected. *)
Definition rejects_sell_without_position {W : Type} (env : Environment W) : Prop :=
  forall st symbol quantity reason,
    dict_contains (positions (self st)) symbol = false ->
    fst (execute_sell env symbol quantity reason st) = Raise NoOpenPositionError /\
    trades (self (snd (execute_sell env symbol quantity reason st))) = trades (self st).

(** The reading of the round trip in which the SELL record stores the
    realized profit. *)
Definition round_trip_stores_pnl {W : Type} (env : Environment W) : Prop :=
  forall st symbol quantity reason,
    dict_contains (positions (self st)) symbol = false ->
    let st' := snd (execute_sell env symbol quantity reason
                      (snd (execute_buy env symbol quantity reason st))) in
    dict_contains (positions (self st')) symbol = false /\
    exists b s entry exit,
      trades (self st') = trades (self st) ++ [b; s] /\
      dict_get b "type" = Some (VStr "BUY") /\
      dict_get s "type" = Some (VStr "SELL") /\
      dict_get b "entry_price" = Some (VNum entry) /\
      dict_get s "exit_price" = Some (VNum exit) /\
      dict_get s "realized_pnl" = Some (VNum ((exit - entry) * quantity)).

(** *** A small exchange for the examples

    The world is a counter of the calls made so far.  The quote is 100 at
    the first call and 110 afterwards; the symbol DOWNUSDT is out of
    service: every call for it raises. *)

Definition quote (w : nat) : R :=
  match w with
  | O => 100
  | S _ => 110
  end.

Definition in_service (symbol : string) : bool :=
  negb (String.eqb symbol "DOWNUSDT").

Definition demo_order (symbol : string) (quantity : R) : order :=
  [("symbol", VStr symbol); ("amount", VNum quantity)]%string.

Definition demo_env : Environment nat := {|
  fetch_ticker_last := fun symbol w =>
    (if in_service symbol then Ok (quote w) else Raise ProviderError, S w);
  create_limit_buy_order := fun symbol quantity _ w =>
    (if in_service symbol then Ok (demo_order symbol quantity)
     else Raise ProviderError, S w);
  create_market_buy_order := fun symbol quantity w =>
    (if in_service symbol then Ok (demo_order symbol quantity)
     else Raise ProviderError, S w);
  create_limit_sell_order := fun symbol quantity _ w =>
    (if in_service symbol then Ok (demo_order symbol quantity)
     else Raise ProviderError, S w);
  create_market_sell_order := fun symbol quantity w =>
    (if in_service symbol then Ok (demo_order symbol quantity)
     else Raise ProviderError, S w);
  datetime_now := fun w => (w, S w)
|}.

(** A fresh process: no position, no trade, nothing logged. *)
Definition fresh (w : nat) : state nat :=
  {| world := w; self := init_executor; log := [] |}.

(** A ledger holding one position in BTCUSDT and one in DOWNUSDT. *)
Definition two_open : state nat :=
  {| world := 5%nat;
     self := {| positions :=
                  [("BTCUSDT", buy_trade "BTCUSDT" 1 100 0 "AI Signal");
                   ("DOWNUSDT", buy_trade "DOWNUSDT" 2 40 1 "AI Signal")];
                trades :=
                  [buy_trade "BTCUSDT" 1 100 0 "AI Signal";
                   buy_trade "DOWNUSDT" 2 40 1 "AI Signal"] |};
     log := [] |}%string.

End Executor.

(** ** indicators.py: [get_multi_timeframe_scores] *)

Module MultiTimeframe.

Import Indicators.

(** A row of the data frame; the function reads the columns [close] and
    [volume] only. *)
Record bar : Type := { close : R; volume : R }.

Definition DataFrame : Type := list bar.

(** [df['close'].values] and [df['volume'].values]. *)
Definition close_values (df : DataFrame) : array := map close df.
Definition volume_values (df : DataFrame) : array := map volume df.

(** [weights.get(key, default)]. *)
Definition weights_get (weights : dict R) (key : string) (default : R) : R :=
  match dict_get weights key with
  | Some w => w
  | None => default
  end.

(** A value of the result: [(score, components)], where the components of
    a frame that is too short are the empty dictionary. *)
Definition frame_score : Type := (R * option components)%type.

(** The [for] loop over [ohlcv_dict.items()]; an exception of
    [calculate_combined_score] is not caught. *)
Fixpoint score_frames (indicator : TechnicalIndicators)
    (items : list (string * DataFrame)) (weights : dict R)
    (results : dict frame_score) : result (dict frame_score) :=
  match items with
  | [] => Ok results
  | (timeframe, df) :: rest =>
      if (length df <? 2)%nat
      then score_frames indicator rest weights
             (dict_set results timeframe (50, None))
      else
        let closes := close_values df in
        let volumes := volume_values df in
        sc <- calculate_combined_score indicator closes volumes
                (weights_get weights "price" 70)
                (weights_get weights "volume" 10)
                (weights_get weights "rsi" 10)
                (weights_get weights "volatility" 10) ;;
        score_frames indicator rest weights
          (dict_set results timeframe (fst sc, Some (snd sc)))
  end.

Definition get_multi_timeframe_scores (ohlcv_dict : dict DataFrame)
    (weights : dict R) : result (dict frame_score) :=
  score_frames default_indicators ohlcv_dict weights [].

(** Two frames for the examples: three hourly rows and a single daily row. *)
Definition sample_frames : dict DataFrame :=
  [("1h", [{| close := 100; volume := 10 |};
           {| close := 101; volume := 12 |};
           {| close := 99; volume := 9 |}]);
   ("1d", [{| close := 100; volume := 31 |}])]%string.

End MultiTimeframe.

(** ** app.py: the trading decision of the bot loop, and the trade history *)

Module App.

Import Executor.

(** config.py *)
Definition BUY_THRESHOLD : R := 70.
Definition SELL_THRESHOLD : R := 30.

Definition string_length (s : string) : nat := String.length s.

(** [s.endswith(suffix)]. *)
Definition endswith (s suffix : string) : bool :=
  (string_length suffix <=? string_length s)%nat &&
  String.eqb
    (String.substring (string_length s - string_length suffix)
       (string_length suffix) s)
    suffix.

(** [s[:-n]] for [n > 0]: the string without its last [n] characters, empty
    when it has no more than [n]. *)
Definition drop_last (n : nat) (s : string) : string :=
  String.substring 0 (string_length s - n) s.

(** [f"{coin}USDT" if not coin.endswith('USDT') else coin], the symbol both
    [run_bot_loop] and [analyze_coin] derive from their argument. *)
Definition usdt_symbol (coin : string) : string :=
  if negb (endswith coin "USDT") then String.append coin "USDT" else coin.

(** The argument [run_bot_loop] passes to [analyze_coin]:
    [coin[:-5] if coin.endswith('USDT') else coin]. *)
Definition analyze_argument (coin : string) : string :=
  if endswith coin "USDT" then drop_last 5 coin else coin.

(** The symbol whose candles are scored for [coin] in the loop. *)
Definition analyzed_symbol (coin : string) : string :=
  usdt_symbol (analyze_argument coin).

(** [executor.trades[-50:]], what [get_trades] returns. *)
Definition get_trades (ex : OrderExecutor) : list trade :=
  slice_last 50 (trades ex).

(** The exchange refuses every market buy order for [symbol]. *)
Definition buy_order_fails {W : Type} (env : Environment W) (symbol : string) : Prop :=
  forall quantity w, exists e w',
    create_market_buy_order env symbol quantity w = (Raise e, w').

Section BotLoop.

Context {W : Type} (env : Environment W).

(** The BUY / SELL branches of [run_bot_loop] for one symbol, once its 1h
    score is known. *)
Definition trade_on_score (symbol : string) (score_1h : R) : M W unit :=
  ex <~ get_self ;;
  if (if Rgt_dec score_1h BUY_THRESHOLD then true else false)
     && negb (dict_contains (positions ex) symbol)
  then
    let quantity := 1 / 100 in
    execute_buy env symbol quantity "AI Signal" ;;; ret tt
  else if (if Rlt_dec score_1h SELL_THRESHOLD then true else false)
          && dict_contains (positions ex) symbol
  then
    position <~ positions_getitem symbol ;;
    quantity <~ getitem_num position "quantity" ;;
    execute_sell env symbol quantity "AI Signal" ;;; ret tt
  else ret tt.

End BotLoop.

End App.

(** ** The same expressions on binary64 floats

    [float] is the kernel's IEEE 754 binary64 type, with correctly rounded
    [+], [-], [*], [/] and [sqrt].  Sums are taken from left to right, as
    numpy does on fewer than eight elements.  [np.exp] and [np.log] are
    arguments of the functions that call them. *)

Module Binary64.

Import PrimFloat.

Local Open Scope float_scope.

















End Binary64.

Import Indicators.

(** * Properties of the scoring functions *)

Section NumPyFacts.

Lemma fold_left_Rplus_acc (a : array) (x : R) :
  fold_left Rplus a x = x + fold_left Rplus a 0.
Proof.
  revert x. induction a as [|y a IH]; intros x; simpl.
  - lra.
  - rewrite (IH (x + y)), (IH (0 + y)). lra.
Qed.

Lemma np_sum_cons (x : R) (a : array) : np_sum (x :: a) = x + np_sum a.
Proof.
  unfold np_sum. simpl. rewrite fold_left_Rplus_acc. lra.
Qed.

Lemma np_sum_const (c : R) (a : array) :
  Forall (fun x => x = c) a -> np_sum a = INR (length a) * c.
Proof.
  induction 1 as [|x a Hx _ IH].
  - unfold np_sum. simpl. lra.
  - rewrite np_sum_cons, IH. subst x.
    change (length (c :: a)) with (S (length a)). rewrite S_INR. lra.
Qed.

Lemma np_mean_const (c : R) (a : array) :
  a <> [] -> Forall (fun x => x = c) a -> np_mean a = c.
Proof.
  intros Hne Hc. unfold np_mean. rewrite (np_sum_const c a Hc).
  assert (0 < INR (length a)) as Hpos.
  { apply lt_0_INR. destruct a; [congruence | simpl; lia]. }
  field. lra.
Qed.

(** The standard deviation of a constant array is zero (exact arithmetic). *)
Lemma np_std_const (c : R) (a : array) :
  Forall (fun x => x = c) a -> np_std a = 0.
Proof.
  intros Hc. unfold np_std.
  assert (np_mean (map (fun x => (x - np_mean a) * (x - np_mean a)) a) = 0) as ->.
  { destruct a as [|x a].
    - unfold np_mean, np_sum. simpl. lra.
    - assert (np_mean (x :: a) = c) as -> by (apply np_mean_const; [discriminate | exact Hc]).
      unfold np_mean.
      rewrite (np_sum_const 0).
      + unfold Rdiv. rewrite Rmult_0_r. lra.
      + apply Forall_map. eapply Forall_impl; [|exact Hc].
        intros y ->. simpl. lra. }
  apply sqrt_0.
Qed.

Lemma np_full_like_length (a : array) (v : R) : length (np_full_like a v) = length a.
Proof. apply length_map. Qed.


Lemma zip_with_length (f : R -> R -> R) (a b : array) :
  length (zip_with f a b) = Nat.min (length a) (length b).
Proof.
  revert b. induction a as [|x a IH]; intros [|y b]; simpl; auto.
Qed.

Lemma np_roll1_length (a : array) : length (np_roll1 a) = length a.
Proof.
  destruct a as [|x a]; [reflexivity|].
  unfold np_roll1.
  change (length (last (x :: a) 0 :: removelast (x :: a)))
    with (S (length (removelast (x :: a)))).
  assert (x :: a <> []) as Hne by discriminate.
  pose proof (app_removelast_last 0 Hne) as Heq.
  apply (f_equal (@length R)) in Heq. rewrite length_app in Heq. simpl in *. lia.
Qed.

Lemma item_last_nonempty {A : Type} (a : list A) :
  a <> [] -> exists x, item_last a = Ok x /\ In x a.
Proof.
  induction a as [|x a IH]; [congruence|]. intros _.
  destruct a as [|y a].
  - exists x. simpl. auto.
  - destruct IH as [z [Hz Hin]]; [discriminate|].
    exists z. split; [exact Hz | right; exact Hin].
Qed.

End NumPyFacts.

Section Normalizer.

Variable self : TechnicalIndicators.


Lemma sigmoid_normalize_length (data : array) :
  length (sigmoid_normalize self data) = length data.
Proof.
  unfold sigmoid_normalize.
  destruct (length data <? 2)%nat; [reflexivity|].
  destruct (Req_dec_T (np_std data) 0).
  - apply np_full_like_length.
  - rewrite !length_map. reflexivity.
Qed.

Lemma sigmoid_normalize_short (data : array) :
  (length data < 2)%nat -> sigmoid_normalize self data = data.
Proof.
  intros H. unfold sigmoid_normalize.
  apply Nat.ltb_lt in H. rewrite H. reflexivity.
Qed.


Lemma sigmoid_normalize_constant (data : array) :
  (2 <= length data)%nat -> constant_series data ->
  sigmoid_normalize self data = np_full_like data 50.
Proof.
  intros H [c Hc]. unfold sigmoid_normalize.
  assert ((length data <? 2)%nat = false) as -> by (apply Nat.ltb_ge; exact H).
  destruct (Req_dec_T (np_std data) 0) as [_|Hne]; [reflexivity|].
  exfalso. apply Hne. apply (np_std_const c). exact Hc.
Qed.

End Normalizer.

(** ** C5: the normalizer *)





(** ** C9: the price score of a two-point series *)

(** C9.  For closes [c1; c2] the return series has one element, which
    [sigmoid_normalize] hands back unchanged: the price score is the raw
    return [c2 / c1 - 1], and it can lie outside [0,100]. *)
Theorem calculate_price_score_two_points (self : TechnicalIndicators) :
  (forall c1 c2 : R,
     sigmoid_normalize self [c2 / c1 - 1] = [c2 / c1 - 1] /\
     calculate_price_score self [c1; c2] = Ok (c2 / c1 - 1)) /\
  (exists r : R,
     calculate_price_score self [2; 1] = Ok r /\ ~ in_score_range r).
Proof.
  split.
  - intros c1 c2. split; reflexivity.
  - exists (1 / 2 - 1). split; [reflexivity|].
    unfold in_score_range. lra.
Qed.

(** ** C6: the volatility score *)

Section Volatility.

Variable self : TechnicalIndicators.

Lemma ratios_length (closes : array) :
  length (np_divide closes (np_roll1 closes)) = length closes.
Proof.
  unfold np_divide. rewrite zip_with_length, np_roll1_length. apply Nat.min_id.
Qed.

Lemma log_returns_length (closes : array) :
  length (slice_from1 (map ln (np_divide closes (np_roll1 closes))))
  = (length closes - 1)%nat.
Proof.
  unfold slice_from1.
  assert (forall l : array, length (tl l) = (length l - 1)%nat) as Htl
    by (intros [|x l]; simpl; lia).
  rewrite Htl, length_map, ratios_length. reflexivity.
Qed.

Lemma item_last_all (P : R -> Prop) (a : array) :
  a <> [] -> Forall P a -> exists x, item_last a = Ok x /\ P x.
Proof.
  intros Hne Hall. destruct (item_last_nonempty a Hne) as [x [Hx Hin]].
  exists x. split; [exact Hx|]. rewrite Forall_forall in Hall. auto.
Qed.

Lemma length_nonempty {A : Type} (a : list A) : (1 <= length a)%nat -> a <> [].
Proof. destruct a; simpl; [lia | discriminate]. Qed.



End Volatility.





(** ** C10: the leading entries of the raw RSI array *)

Section RSI.

Lemma setitem_length {A : Type} (a : list A) (i : nat) (v : A) :
  length (setitem a i v) = length a.
Proof.
  revert i. induction a as [|x a IH]; intros [|i]; simpl; auto.
Qed.

Lemma setitem_other {A : Type} (a : list A) (i j : nat) (v : A) :
  i <> j -> nth_error (setitem a j v) i = nth_error a i.
Proof.
  revert i j. induction a as [|x a IH]; intros [|i] [|j] Hij; simpl; auto.
  congruence.
Qed.

Lemma np_zeros_like_nth (a : array) (i : nat) :
  (i < length a)%nat -> nth_error (np_zeros_like a) i = Some 0.
Proof.
  intros Hi. unfold np_zeros_like, np_full_like.
  rewrite nth_error_map.
  destruct (nth_error a i) eqn:E; [reflexivity|].
  apply nth_error_None in E. lia.
Qed.

Lemma zip_with_nth (f : R -> R -> R) (a b : array) (i : nat) (x y : R) :
  nth_error a i = Some x -> nth_error b i = Some y ->
  nth_error (zip_with f a b) i = Some (f x y).
Proof.
  revert b i. induction a as [|x' a IH]; intros [|y' b] [|i]; simpl;
    try discriminate.
  - intros [= ->] [= ->]. reflexivity.
  - apply IH.
Qed.

(** A property of the pair of arrays that every turn of the loop keeps
    holds after the loop. *)
Lemma rsi_loop_invariant (P : array * array -> Prop) (period : nat)
    (gains losses : array) (indices : list nat) (st : array * array) :
  (forall st' i, In i indices -> P st' -> P (rsi_step period gains losses st' i)) ->
  P st -> P (fold_left (rsi_step period gains losses) indices st).
Proof.
  revert st. induction indices as [|i indices IH]; intros st Hstep Hst; simpl.
  - exact Hst.
  - apply IH.
    + intros st' j Hj. apply Hstep. right. exact Hj.
    + apply Hstep; [left; reflexivity | exact Hst].
Qed.

Lemma rsi_averages_length (closes : array) (period : nat) :
  length (fst (rsi_averages closes period)) = length closes /\
  length (snd (rsi_averages closes period)) = length closes.
Proof.
  unfold rsi_averages.
  apply (rsi_loop_invariant
           (fun st => length (fst st) = length closes /\
                      length (snd st) = length closes)).
  - intros [ag al] i _ [Hg Hl]. simpl in *. rewrite !setitem_length. auto.
  - simpl. rewrite !setitem_length. unfold np_zeros_like.
    rewrite !np_full_like_length. auto.
Qed.

(** The entries below [period] are never written: they keep the zero they
    were created with. *)
Lemma rsi_averages_leading_zeros (closes : array) (period i : nat) :
  (i < period)%nat -> (i < length closes)%nat ->
  nth_error (fst (rsi_averages closes period)) i = Some 0 /\
  nth_error (snd (rsi_averages closes period)) i = Some 0.
Proof.
  intros Hi Hlen. unfold rsi_averages.
  apply (rsi_loop_invariant
           (fun st => nth_error (fst st) i = Some 0 /\
                      nth_error (snd st) i = Some 0)).
  - intros [ag al] j Hj [Hg Hl]. apply in_seq in Hj. simpl in *.
    rewrite !setitem_other by lia. auto.
  - simpl. rewrite !setitem_other by lia.
    split; apply np_zeros_like_nth; exact Hlen.
Qed.

Lemma calculate_rsi_length (closes : array) (period : nat) :
  length (calculate_rsi closes period) = length closes.
Proof.
  unfold calculate_rsi.
  destruct (length closes <? period + 1)%nat.
  - apply np_full_like_length.
  - destruct (rsi_averages_length closes period) as [Hg Hl].
    destruct (rsi_averages closes period) as [ag al]. simpl in *.
    rewrite length_map, zip_with_length, Hg, Hl. apply Nat.min_id.
Qed.

Lemma calculate_rsi_leading_zeros (closes : array) (period i : nat) :
  (period + 1 <= length closes)%nat -> (i < period)%nat ->
  nth_error (calculate_rsi closes period) i = Some 0.
Proof.
  intros Hlen Hi. unfold calculate_rsi.
  assert ((length closes <? period + 1)%nat = false) as ->
    by (apply Nat.ltb_ge; exact Hlen).
  destruct (rsi_averages_leading_zeros closes period i) as [Hg Hl]; [lia | lia |].
  destruct (rsi_averages closes period) as [ag al]. simpl in *.
  rewrite nth_error_map.
  rewrite (zip_with_nth _ ag al i 0 0 Hg Hl). simpl. f_equal.
  unfold eps. field.
Qed.

Lemma slice_last_length {A : Type} (k : nat) (a : list A) :
  length (slice_last k a)
  = if (k =? 0)%nat then length a else Nat.min k (length a).
Proof.
  unfold slice_last. destruct (k =? 0)%nat; [reflexivity|].
  rewrite length_skipn. lia.
Qed.

Lemma slice_last_whole {A : Type} (k : nat) (a : list A) :
  (length a <= k)%nat -> slice_last k a = a.
Proof.
  intros Hk. unfold slice_last. destruct (k =? 0)%nat; [reflexivity|].
  replace (length a - k)%nat with 0%nat by lia. reflexivity.
Qed.

Lemma slice_last_nonempty {A : Type} (k : nat) (a : list A) :
  a <> [] -> slice_last k a <> [].
Proof.
  intros Hne. apply length_nonempty. rewrite slice_last_length.
  destruct (k =? 0)%nat eqn:E.
  - destruct a; [congruence | simpl; lia].
  - apply Nat.eqb_neq in E. destruct a; [congruence | simpl; lia].
Qed.

End RSI.

(** C10, as amended.  With at least [period + 1] closes, the raw RSI array
    is 0 at every index below [period]; and when the series is no longer
    than the lookback, the window that [calculate_combined_score]
    normalizes is the whole array, these zeros included. *)
Theorem calculate_rsi_leading_zeros_in_window
    (self : TechnicalIndicators) (closes : array) (i : nat) :
  (rsi_period self + 1 <= length closes)%nat -> (i < rsi_period self)%nat ->
  nth_error (calculate_rsi closes (rsi_period self)) i = Some 0 /\
  ((length closes <= lookback self)%nat ->
   rsi_window self (calculate_rsi closes (rsi_period self))
   = calculate_rsi closes (rsi_period self) /\
   nth_error (rsi_window self (calculate_rsi closes (rsi_period self))) i = Some 0).
Proof.
  intros Hlen Hi.
  pose proof (calculate_rsi_leading_zeros closes (rsi_period self) i Hlen Hi) as Hz.
  split; [exact Hz|]. intros Hwin.
  unfold rsi_window. rewrite slice_last_whole.
  - split; [reflexivity | exact Hz].
  - rewrite calculate_rsi_length. exact Hwin.
Qed.

Lemma calculate_rsi_leading_zeros_in_window_witness :
  nth_error (calculate_rsi sixteen_closes 14) 13 = Some 0 /\
  nth_error (rsi_window default_indicators (calculate_rsi sixteen_closes 14)) 13
  = Some 0.
Proof.
  destruct (calculate_rsi_leading_zeros_in_window default_indicators
              sixteen_closes 13) as [Hz Hw].
  - simpl. lia.
  - simpl. lia.
  - split; [exact Hz|]. apply Hw. simpl. lia.
Defined.

Lemma where_pos_gain (d : R) : 0 < d -> (if Rlt_dec 0 d then d else 0) = d.
Proof. intros H. destruct (Rlt_dec 0 d); [reflexivity | contradiction]. Qed.

Lemma where_neg_gain (d : R) : 0 < d -> (if Rlt_dec d 0 then - d else 0) = 0.
Proof. intros H. destruct (Rlt_dec d 0); [lra | reflexivity]. Qed.

(** C10 fails as stated: with [lookback = 1] and [period = 1] on three
    rising closes the window is the last RSI value alone, and the leading
    zero of the raw array is not in it. *)
Lemma rsi_window_can_miss_leading_zeros :
  (rsi_period narrow_indicators + 1 <= length [1; 2; 3])%nat /\
  nth_error (calculate_rsi [1; 2; 3] (rsi_period narrow_indicators)) 0 = Some 0 /\
  ~ In 0 (rsi_window narrow_indicators
            (calculate_rsi [1; 2; 3] (rsi_period narrow_indicators))).
Proof.
  split; [simpl; lia|].
  split; [apply calculate_rsi_leading_zeros; simpl; lia|].
  unfold rsi_window, slice_last, calculate_rsi, rsi_averages.
  cbn -[Rlt_dec Rplus Rminus Rmult Rdiv Rinv eps np_mean].
  rewrite !where_pos_gain, !where_neg_gain by lra.
  unfold np_mean, np_sum, eps. cbn -[Rplus Rminus Rmult Rdiv Rinv].
  intros [H|[]].
  match type of H with
  | ?x = 0 => assert (x = 100 - 100 / 10000000001) as E by (field; lra)
  end.
  rewrite E in H. lra.
Qed.

(** ** C7: the combined score *)

Section Composite.

Variable self : TechnicalIndicators.

Lemma sigmoid_normalize_nonempty (data : array) :
  data <> [] -> sigmoid_normalize self data <> [].
Proof.
  intros Hne. apply length_nonempty. rewrite sigmoid_normalize_length.
  destruct data; [congruence | simpl; lia].
Qed.

Lemma item_last_total (a : array) : a <> [] -> exists x, item_last a = Ok x.
Proof.
  intros Hne. destruct (item_last_nonempty a Hne) as [x [Hx _]]. eauto.
Qed.

Lemma calculate_price_score_total (closes : array) :
  exists r, calculate_price_score self closes = Ok r.
Proof.
  unfold calculate_price_score.
  destruct (length closes <? 2)%nat eqn:E; [eauto|].
  apply Nat.ltb_ge in E.
  apply item_last_total, sigmoid_normalize_nonempty, length_nonempty.
  rewrite length_map. unfold slice_from1.
  pose proof (ratios_length closes) as Hl.
  destruct (np_divide closes (np_roll1 closes)) as [|q [|q' qs]];
    simpl in *; lia.
Qed.

Lemma calculate_volume_score_total (volumes : array) :
  exists r, calculate_volume_score self volumes = Ok r.
Proof.
  unfold calculate_volume_score.
  destruct (length volumes <? 2)%nat eqn:E; [eauto|].
  apply Nat.ltb_ge in E.
  apply item_last_total, sigmoid_normalize_nonempty, slice_last_nonempty.
  apply length_nonempty. lia.
Qed.

Lemma calculate_volatility_score_total (closes : array) :
  exists r, calculate_volatility_score self closes = Ok r.
Proof.
  unfold calculate_volatility_score.
  destruct (length closes <? 2)%nat eqn:E; [eauto|].
  apply Nat.ltb_ge in E.
  apply item_last_total, sigmoid_normalize_nonempty, length_nonempty.
  unfold np_full. rewrite repeat_length, log_returns_length. lia.
Qed.

Lemma calculate_rsi_nonempty (closes : array) (period : nat) :
  closes <> [] -> calculate_rsi closes period <> [].
Proof.
  intros Hne. apply length_nonempty. rewrite calculate_rsi_length.
  destruct closes; [congruence | simpl; lia].
Qed.

End Composite.





(** * Properties of the position ledger *)

Import Executor.

Section DictFacts.

Context {V : Type}.

Implicit Types (d : dict V) (k : string) (v : V).

Lemma dict_get_set_same d k v : dict_get (dict_set d k v) k = Some v.
Proof.
  induction d as [|[k' v'] d IH]; simpl.
  - rewrite String.eqb_refl. reflexivity.
  - destruct (String.eqb k' k) eqn:E; simpl; rewrite E; auto.
Qed.

Lemma dict_get_set_other d k k' v :
  k <> k' -> dict_get (dict_set d k v) k' = dict_get d k'.
Proof.
  intros Hne. induction d as [|[k0 v0] d IH]; simpl.
  - apply String.eqb_neq in Hne. rewrite Hne. reflexivity.
  - destruct (String.eqb k0 k) eqn:E; simpl.
    + apply String.eqb_eq in E. subst k0.
      apply String.eqb_neq in Hne. rewrite Hne. reflexivity.
    + rewrite IH. reflexivity.
Qed.

Lemma dict_get_none_keys d k : dict_get d k = None <-> ~ In k (dict_keys d).
Proof.
  induction d as [|[k' v'] d IH]; simpl.
  - tauto.
  - destruct (String.eqb k' k) eqn:E.
    + apply String.eqb_eq in E. split; [discriminate | intros H; exfalso; auto].
    + apply String.eqb_neq in E. rewrite IH. tauto.
Qed.

Lemma dict_get_some_keys d k v : dict_get d k = Some v -> In k (dict_keys d).
Proof.
  intros H. destruct (in_dec string_dec k (dict_keys d)) as [Hin|Hout]; [exact Hin|].
  apply dict_get_none_keys in Hout. congruence.
Qed.

Lemma dict_keys_set_present d k v :
  dict_contains d k = true -> dict_keys (dict_set d k v) = dict_keys d.
Proof.
  unfold dict_contains. induction d as [|[k' v'] d IH]; simpl.
  - discriminate.
  - destruct (String.eqb k' k) eqn:E; simpl; [reflexivity|].
    intros H. rewrite (IH H). reflexivity.
Qed.

Lemma dict_keys_set_absent d k v :
  dict_get d k = None -> dict_keys (dict_set d k v) = dict_keys d ++ [k].
Proof.
  induction d as [|[k' v'] d IH]; simpl.
  - reflexivity.
  - destruct (String.eqb k' k) eqn:E; simpl; [discriminate|].
    intros H. rewrite (IH H). reflexivity.
Qed.

Lemma dict_get_del_other d k k' :
  k <> k' -> dict_get (dict_del d k) k' = dict_get d k'.
Proof.
  intros Hne. induction d as [|[k0 v0] d IH]; simpl; [reflexivity|].
  destruct (String.eqb k0 k) eqn:E; simpl.
  - apply String.eqb_eq in E. subst k0.
    apply String.eqb_neq in Hne. rewrite Hne. reflexivity.
  - rewrite IH. reflexivity.
Qed.

Lemma dict_keys_del_subset d k k' :
  In k' (dict_keys (dict_del d k)) -> In k' (dict_keys d).
Proof.
  induction d as [|[k0 v0] d IH]; simpl; [tauto|].
  destruct (String.eqb k0 k); simpl; tauto.
Qed.

Lemma dict_del_nodup d k :
  NoDup (dict_keys d) -> NoDup (dict_keys (dict_del d k)).
Proof.
  induction d as [|[k0 v0] d IH]; simpl; [auto|].
  intros Hnd. inversion Hnd as [|x l Hout Hrest]; subst.
  destruct (String.eqb k0 k); simpl; [exact Hrest|].
  constructor; [|auto].
  intros Hin. apply Hout. eapply dict_keys_del_subset. exact Hin.
Qed.

Lemma dict_get_del_same d k :
  NoDup (dict_keys d) -> dict_get (dict_del d k) k = None.
Proof.
  induction d as [|[k0 v0] d IH]; simpl; [reflexivity|].
  intros Hnd. inversion Hnd as [|x l Hout Hrest]; subst.
  destruct (String.eqb k0 k) eqn:E; simpl.
  - apply String.eqb_eq in E. subst k0. apply dict_get_none_keys. exact Hout.
  - rewrite E. auto.
Qed.

Lemma dict_set_nodup d k v :
  NoDup (dict_keys d) -> NoDup (dict_keys (dict_set d k v)).
Proof.
  intros Hnd. destruct (dict_get d k) eqn:E.
  - rewrite dict_keys_set_present; [exact Hnd|].
    unfold dict_contains. rewrite E. reflexivity.
  - rewrite dict_keys_set_absent by exact E.
    apply NoDup_app; [exact Hnd | repeat constructor; simpl; tauto |].
    intros x Hx [<-|[]]. apply dict_get_none_keys in E. contradiction.
Qed.

Lemma dict_del_forall (P : string * V -> Prop) d k :
  Forall P d -> Forall P (dict_del d k).
Proof.
  induction 1 as [|[k0 v0] d H0 Hd IH]; simpl; [constructor|].
  destruct (String.eqb k0 k); [exact Hd | constructor; assumption].
Qed.

Lemma dict_set_forall (P : string * V -> Prop) d k v :
  Forall P d -> P (k, v) -> Forall P (dict_set d k v).
Proof.
  intros Hd Hk. induction Hd as [|[k0 v0] d H0 Hd IH]; simpl.
  - repeat constructor. exact Hk.
  - destruct (String.eqb k0 k) eqn:E.
    + apply String.eqb_eq in E. subst k0. constructor; assumption.
    + constructor; assumption.
Qed.

Lemma dict_get_forall (P : string * V -> Prop) d k v :
  Forall P d -> dict_get d k = Some v -> P (k, v).
Proof.
  induction 1 as [|[k0 v0] d H0 Hd IH]; simpl; [discriminate|].
  destruct (String.eqb k0 k) eqn:E.
  - apply String.eqb_eq in E. subst k0. intros [= <-]. exact H0.
  - exact IH.
Qed.

(** Unique keys: no symbol has two entries. *)
Lemma nodup_entries_for d k :
  NoDup (dict_keys d) -> (entries_for d k <= 1)%nat.
Proof.
  unfold entries_for. induction d as [|[k0 v0] d IH]; simpl; [lia|].
  intros Hnd. inversion Hnd as [|x l Hout Hrest]; subst.
  destruct (String.eqb k0 k) eqn:E; simpl; [|auto].
  apply String.eqb_eq in E. subst k0.
  assert (filter (fun kv => String.eqb (fst kv) k) d = []) as ->; [|simpl; lia].
  clear -Hout. induction d as [|[k1 v1] d IH]; simpl in *; [reflexivity|].
  destruct (String.eqb k1 k) eqn:E1.
  - apply String.eqb_eq in E1. subst k1. tauto.
  - apply IH. tauto.
Qed.

End DictFacts.

Section LedgerSpecs.

Context {W : Type} (env : Environment W).

Ltac run_method :=
  unfold try_except, bind, call, now, trades_append, positions_setitem,
    get_self, set_self, logger, ret, raise; simpl.

(** The connector absorbs every failure of the exchange: the price fetch
    always returns, and leaves the ledger alone. *)
Lemma get_current_price_spec (symbol : string) (st : state W) :
  exists price w' l',
    get_current_price env symbol st
    = (Ok price, {| world := w'; self := self st; log := log st ++ l' |}).
Proof.
  unfold get_current_price. run_method.
  destruct (fetch_ticker_last env symbol (world st)) as [[p|e] w1]; simpl.
  - exists p, w1, []. rewrite app_nil_r. reflexivity.
  - repeat eexists.
Qed.


(** [execute_buy] always returns: it appends the BUY trade and stores it
    under the symbol, whether or not the symbol was already there. *)
Lemma execute_buy_spec (symbol : string) (quantity : R) (reason : string)
    (st : state W) :
  exists o price t w' l',
    execute_buy env symbol quantity reason st
    = (Ok o,
       {| world := w';
          self := {| positions := dict_set (positions (self st)) symbol
                                    (buy_trade symbol quantity price t reason);
                     trades := trades (self st)
                               ++ [buy_trade symbol quantity price t reason] |};
          log := log st ++ l' |}).
Proof.
  unfold execute_buy, get_current_price, place_buy_order. run_method.
  destruct (fetch_ticker_last env symbol (world st)) as [[p|e] w1]; simpl;
    destruct (create_market_buy_order env symbol quantity w1) as [[o|e'] w2]; simpl;
    destruct (datetime_now env w2) as [t w3]; simpl;
    repeat rewrite <- app_assoc; repeat eexists.
Qed.

(** [execute_sell] always returns and always appends the SELL trade.  The
    position is removed when there is one whose entry price is not zero;
    the profit is then written to the log, not to the trade. *)
Lemma execute_sell_spec (symbol : string) (quantity : R) (reason : string)
    (st : state W) :
  exists o price t w' l' ps',
    execute_sell env symbol quantity reason st
    = (Ok o,
       {| world := w';
          self := {| positions := ps';
                     trades := trades (self st)
                               ++ [sell_trade symbol quantity price t reason] |};
          log := log st ++ l' |}) /\
    (ps' = positions (self st) \/ ps' = dict_del (positions (self st)) symbol) /\
    (dict_get (positions (self st)) symbol = None -> ps' = positions (self st)) /\
    (forall pos entry,
       dict_get (positions (self st)) symbol = Some pos ->
       dict_get pos "entry_price" = Some (VNum entry) ->
       entry <> 0 ->
       ps' = dict_del (positions (self st)) symbol /\
       In (SellExecuted symbol quantity price
             ((price - entry) * quantity) ((price - entry) / entry * 100)) l') /\
    (sell_order_fails env symbol -> o = []).
Proof.
  unfold execute_sell, get_current_price, place_sell_order. run_method.
  destruct (fetch_ticker_last env symbol (world st)) as [[p|e] w1]; simpl;
    destruct (create_market_sell_order env symbol quantity w1) as [[o|e'] w2] eqn:Eo;
    simpl; destruct (datetime_now env w2) as [t w3]; simpl.
  all: unfold dict_contains, positions_getitem, positions_delitem, getitem_num,
         float_div, of_option; run_method.
  all: destruct (dict_get (positions (self st)) symbol) as [p0|] eqn:Ep.
  all: repeat (progress (simpl; unfold dict_contains; rewrite ?Ep)).
  all: try (destruct (dict_get p0 "entry_price") as [[x|entry|x]|] eqn:Ee).
  all: repeat (progress (simpl; unfold dict_contains; rewrite ?Ep)).
  all: try (destruct (Req_dec_T entry 0) as [Ez|Ez]).
  all: repeat (progress (simpl; unfold dict_contains; rewrite ?Ep)).
  all: repeat rewrite <- app_assoc.
  all: do 6 eexists; (split; [reflexivity|]).
  all: (split; [auto|]); (split; [try discriminate; auto|]).
  all: split.
  all: try (intros pos' entry' Hp He Hz; discriminate).
  all: try (intros pos' entry' Hp He Hz; inversion Hp; subst pos';
            rewrite He in Ee; discriminate).
  all: try (intros pos' entry' Hp He Hz; inversion Hp; subst pos';
            rewrite He in Ee; inversion Ee; subst entry';
            first [contradiction | split; [reflexivity | simpl; auto 10]]).
  all: try (intros Hfail; destruct (Hfail quantity w1) as [e0 [w0 E0]];
            rewrite E0 in Eo; try discriminate; reflexivity).
  all: try reflexivity.
Qed.

(** [execute_sell], call by call: the price is fetched, the market sell
    order is placed, the clock is read, the SELL trade is appended; what is
    returned and what happens to the position depends on the position. *)
Lemma execute_sell_run (symbol : string) (quantity : R) (reason : string)
    (st : state W) :
  exists a1 w1 a2 w2 t w3 l' ps' o,
    fetch_ticker_last env symbol (world st) = (a1, w1) /\
    create_market_sell_order env symbol quantity w1 = (a2, w2) /\
    datetime_now env w2 = (t, w3) /\
    execute_sell env symbol quantity reason st
    = (Ok o,
       {| world := w3;
          self := {| positions := ps';
                     trades := trades (self st)
                               ++ [sell_trade symbol quantity (fetched_price a1)
                                     t reason] |};
          log := log st ++ l' |}) /\
    (dict_get (positions (self st)) symbol = None ->
     ps' = positions (self st) /\ o = placed_order a2) /\
    (forall pos entry,
       dict_get (positions (self st)) symbol = Some pos ->
       dict_get pos "entry_price" = Some (VNum entry) ->
       (entry <> 0 ->
        ps' = dict_del (positions (self st)) symbol /\ o = placed_order a2) /\
       (entry = 0 -> ps' = positions (self st) /\ o = [])) /\
    (ps' = positions (self st) \/ ps' = dict_del (positions (self st)) symbol).
Proof.
  unfold execute_sell, get_current_price, place_sell_order. run_method.
  destruct (fetch_ticker_last env symbol (world st)) as [[p|e] w1] eqn:Ef; simpl;
    destruct (create_market_sell_order env symbol quantity w1) as [[o|e'] w2] eqn:Eo;
    simpl; destruct (datetime_now env w2) as [t w3] eqn:Et; simpl.
  all: unfold dict_contains, positions_getitem, positions_delitem, getitem_num,
         float_div, of_option; run_method.
  all: destruct (dict_get (positions (self st)) symbol) as [p0|] eqn:Ep.
  all: repeat (progress (simpl; unfold dict_contains; rewrite ?Ep)).
  all: try (destruct (dict_get p0 "entry_price") as [[x|entry|x]|] eqn:Ee).
  all: repeat (progress (simpl; unfold dict_contains; rewrite ?Ep)).
  all: try (destruct (Req_dec_T entry 0) as [Ez|Ez]).
  all: repeat (progress (simpl; unfold dict_contains; rewrite ?Ep)).
  all: repeat rewrite <- app_assoc.
  all: do 9 eexists; (split; [reflexivity|]); (split; [exact Eo|]);
       (split; [exact Et|]); (split; [reflexivity|]).
  all: split; [intros Hnone; try discriminate; split; reflexivity|].
  all: split; [|auto].
  all: intros pos' entry' Hp He; try discriminate.
  all: inversion Hp; subst pos'; rewrite He in Ee; try discriminate.
  all: inversion Ee; subst entry'.
  all: split; intros Hz; try contradiction; split; reflexivity.
Qed.

Lemma buy_trade_entry_price symbol quantity price t reason :
  dict_get (buy_trade symbol quantity price t reason) "entry_price"
  = Some (VNum price).
Proof. reflexivity. Qed.

Lemma buy_trade_quantity symbol quantity price t reason :
  dict_get (buy_trade symbol quantity price t reason) "quantity"
  = Some (VNum quantity).
Proof. reflexivity. Qed.

Lemma ledger_wf_init : ledger_wf init_executor.
Proof. split; constructor. Qed.

Lemma ledger_wf_buy (ex : OrderExecutor) symbol quantity price t reason trs :
  ledger_wf ex ->
  ledger_wf {| positions := dict_set (positions ex) symbol
                              (buy_trade symbol quantity price t reason);
               trades := trs |}.
Proof.
  intros [Hnd Hok]. split; simpl.
  - apply dict_set_nodup. exact Hnd.
  - apply dict_set_forall; [exact Hok|].
    exists quantity, price, t, reason. reflexivity.
Qed.

Lemma ledger_wf_sell (ex : OrderExecutor) symbol ps' trs :
  ledger_wf ex ->
  ps' = positions ex \/ ps' = dict_del (positions ex) symbol ->
  ledger_wf {| positions := ps'; trades := trs |}.
Proof.
  intros [Hnd Hok] [->| ->]; split; simpl; auto.
  - apply dict_del_nodup. exact Hnd.
  - apply dict_del_forall. exact Hok.
Qed.

Lemma ledger_wf_lookup (ex : OrderExecutor) symbol pos :
  ledger_wf ex -> dict_get (positions ex) symbol = Some pos ->
  exists quantity price t reason, pos = buy_trade symbol quantity price t reason.
Proof.
  intros [_ Hok] Hget.
  exact (dict_get_forall position_ok _ _ _ Hok Hget).
Qed.

End LedgerSpecs.

(** ** The loop of [close_all_positions] *)

Section CloseAll.

Context {W : Type} (env : Environment W).

Lemma positions_getitem_spec (symbol : string) (pos : trade) (st : state W) :
  dict_get (positions (self st)) symbol = Some pos ->
  @positions_getitem W symbol st = (Ok pos, st).
Proof.
  intros H. unfold positions_getitem, bind, get_self, of_option. rewrite H.
  reflexivity.
Qed.

Lemma close_one_spec (symbol : string) (closed : dict closed_entry)
    (st : state W) (quantity entry : R) (t0 : nat) (reason : string) :
  dict_get (positions (self st)) symbol
  = Some (buy_trade symbol quantity entry t0 reason) ->
  exists o price price' t w' l' ps',
    close_one env symbol closed st
    = (Ok (dict_set closed symbol
             [("pnl", EFloat ((price' - entry) * quantity)); ("order", EOrder o)]%string),
       {| world := w';
          self := {| positions := ps';
                     trades := trades (self st)
                               ++ [sell_trade symbol quantity price t "Close All"] |};
          log := log st ++ l' |}) /\
    (ps' = positions (self st) \/ ps' = dict_del (positions (self st)) symbol) /\
    (entry <> 0 -> ps' = dict_del (positions (self st)) symbol) /\
    (sell_order_fails env symbol -> o = []).
Proof.
  intros Hget.
  destruct (get_current_price_spec env symbol st) as (price' & w1 & l1 & E1).
  destruct (execute_sell_spec env symbol quantity "Close All"
              {| world := w1; self := self st; log := log st ++ l1 |})
    as (o & price & t & w2 & l2 & ps' & E2 & Hps & _ & Hdel & Hfail).
  simpl in E2, Hps, Hdel.
  exists o, price, price', t, w2, (l1 ++ l2), ps'.
  split; [|split; [exact Hps|split; [|exact Hfail]]].
  - unfold close_one, try_except, bind.
    rewrite (positions_getitem_spec _ _ _ Hget). unfold getitem_num, ret.
    rewrite buy_trade_entry_price. cbv beta iota.
    rewrite (positions_getitem_spec _ _ _ Hget).
    rewrite buy_trade_quantity. cbv beta iota.
    rewrite E1, E2, app_assoc. reflexivity.
  - intros Hz. apply (Hdel _ entry Hget); [reflexivity | exact Hz].
Qed.

Variable d0 : dict trade.

Lemma close_loop_spec (symbols : list string) :
  forall (closed : dict closed_entry) (st : state W),
    ledger_wf (self st) ->
    NoDup symbols ->
    (forall s, In s symbols ->
       exists pos, dict_get d0 s = Some pos /\
                   dict_get (positions (self st)) s = Some pos) ->
    (forall s, In s symbols -> dict_get closed s = None) ->
    exists closed' st' new,
      close_loop env symbols closed st = (Ok closed', st') /\
      ledger_wf (self st') /\
      dict_keys closed' = dict_keys closed ++ symbols /\
      trades (self st') = trades (self st) ++ new /\
      Forall2 (fun s tr => exists pos, dict_get d0 s = Some pos /\
                                       close_all_sell (s, pos) tr) symbols new /\
      (forall s, ~ In s symbols ->
         dict_get (positions (self st')) s = dict_get (positions (self st)) s) /\
      (forall s pos entry, In s symbols ->
         dict_get d0 s = Some pos ->
         dict_get pos "entry_price" = Some (VNum entry) -> entry <> 0 ->
         dict_get (positions (self st')) s = None) /\
      (forall s, In s symbols -> sell_order_fails env s ->
         exists e, dict_get closed' s = Some e /\
                   dict_get e "order" = Some (EOrder [])) /\
      (forall s, ~ In s symbols -> dict_get closed' s = dict_get closed s).
Proof.
  induction symbols as [|symbol rest IH]; intros closed st Hwf Hnd Hpos Hcl.
  - exists closed, st, []. simpl. rewrite !app_nil_r.
    split; [reflexivity|]. split; [exact Hwf|].
    repeat split; auto; try constructor; try tauto.
  - inversion Hnd as [|x l Hout Hnd']; subst.
    destruct (Hpos symbol (or_introl eq_refl)) as (pos & Hd0 & Hget).
    destruct (ledger_wf_lookup _ _ _ Hwf Hget) as (q & entry & t0 & r0 & ->).
    destruct (close_one_spec symbol closed st q entry t0 r0 Hget)
      as (o & price & price' & t & w1 & l1 & ps' & E1 & Hps & Hdel & Hfail).
    set (st1 := {| world := w1;
                   self := {| positions := ps';
                              trades := trades (self st)
                                        ++ [sell_trade symbol q price t "Close All"] |};
                   log := log st ++ l1 |}) in *.
    set (closed1 := dict_set closed symbol
                      [("pnl", EFloat ((price' - entry) * q));
                       ("order", EOrder o)]%string) in *.
    assert (forall s, s <> symbol ->
              dict_get ps' s = dict_get (positions (self st)) s) as Hframe.
    { intros s Hs. destruct Hps as [->| ->]; [reflexivity|].
      apply dict_get_del_other. congruence. }
    destruct (IH closed1 st1) as
      (closed' & st' & new & E & Hwf' & Hkeys & Htr & Hall & Hkeep & Hgone & Herr & Hcl').
    + apply (ledger_wf_sell (self st) symbol); assumption.
    + exact Hnd'.
    + intros s Hs. destruct (Hpos s (or_intror Hs)) as (pos & Hd & Hg).
      exists pos. split; [exact Hd|]. simpl. rewrite Hframe; [exact Hg|].
      intros ->. contradiction.
    + intros s Hs. unfold closed1. rewrite dict_get_set_other.
      * apply Hcl. right. exact Hs.
      * intros ->. contradiction.
    + exists closed', st', (sell_trade symbol q price t "Close All" :: new).
      split; [simpl; unfold bind; rewrite E1; exact E|].
      split; [exact Hwf'|].
      split.
      { rewrite Hkeys. unfold closed1. rewrite dict_keys_set_absent.
        - rewrite <- app_assoc. reflexivity.
        - apply Hcl. left. reflexivity. }
      split; [rewrite Htr; simpl; rewrite <- app_assoc; reflexivity|].
      split.
      { constructor; [|exact Hall].
        exists (buy_trade symbol q entry t0 r0). split; [exact Hd0|].
        exists q, price, t. split; reflexivity. }
      split.
      { intros s Hs. rewrite Hkeep by (simpl in Hs; tauto).
        simpl. apply Hframe. simpl in Hs. intros ->. tauto. }
      split.
      { intros s pos e [<-|Hs] Hd He Hz.
        - rewrite Hkeep by exact Hout. simpl.
          rewrite Hd0 in Hd. injection Hd as <-.
          rewrite buy_trade_entry_price in He. injection He as <-.
          rewrite (Hdel Hz). apply dict_get_del_same. apply Hwf.
        - eapply Hgone; eauto. }
      split.
      { intros s [<-|Hs] Hf.
        - rewrite Hcl' by exact Hout. unfold closed1.
          rewrite dict_get_set_same. eexists. split; [reflexivity|].
          rewrite (Hfail Hf). reflexivity.
        - apply Herr; assumption. }
      intros s Hs. rewrite Hcl' by (simpl in Hs; tauto).
      unfold closed1. apply dict_get_set_other. simpl in Hs. intros ->. tauto.
Qed.





End CloseAll.

Section LedgerClaims.

Context {W : Type} (env : Environment W).

Lemma dict_keys_get {V : Type} (d : dict V) (k : string) :
  In k (dict_keys d) -> exists v, dict_get d k = Some v.
Proof.
  intros Hin. destruct (dict_get d k) as [v|] eqn:E; [eauto|].
  apply dict_get_none_keys in E. contradiction.
Qed.

Lemma dict_contains_true {V : Type} (d : dict V) (k : string) :
  dict_contains d k = true -> exists v, dict_get d k = Some v.
Proof.
  unfold dict_contains. destruct (dict_get d k); [eauto | discriminate].
Qed.

Lemma dict_contains_false {V : Type} (d : dict V) (k : string) :
  dict_contains d k = false <-> dict_get d k = None.
Proof.
  unfold dict_contains. destruct (dict_get d k); split; congruence.
Qed.

Lemma dict_del_set_fresh {V : Type} (d : dict V) (k : string) (v : V) :
  dict_get d k = None -> dict_del (dict_set d k v) k = d.
Proof.
  induction d as [|[k' v'] d IH]; simpl.
  - rewrite String.eqb_refl. reflexivity.
  - destruct (String.eqb k' k) eqn:E; [discriminate|].
    intros H. simpl. rewrite E, (IH H). reflexivity.
Qed.

(** [close_all_positions] on a well-formed ledger. *)
Lemma close_all_positions_spec (st : state W) :
  ledger_wf (self st) ->
  exists closed st' new,
    close_all_positions env st = (Ok closed, st') /\
    ledger_wf (self st') /\
    dict_keys closed = dict_keys (positions (self st)) /\
    trades (self st') = trades (self st) ++ new /\
    Forall2 (fun s tr => exists pos, dict_get (positions (self st)) s = Some pos /\
                                     close_all_sell (s, pos) tr)
      (dict_keys (positions (self st))) new /\
    (forall s pos entry,
       dict_get (positions (self st)) s = Some pos ->
       dict_get pos "entry_price" = Some (VNum entry) -> entry <> 0 ->
       dict_get (positions (self st')) s = None) /\
    (forall s, dict_contains (positions (self st)) s = true ->
       sell_order_fails env s ->
       exists e, dict_get closed s = Some e /\
                 dict_get e "order" = Some (EOrder [])).
Proof.
  intros Hwf.
  destruct (close_loop_spec env (positions (self st))
              (dict_keys (positions (self st))) [] st)
    as (closed & st' & new & E & Hwf' & Hkeys & Htr & Hall & _ & Hgone & Herr & _).
  - exact Hwf.
  - apply Hwf.
  - intros s Hs. destruct (dict_keys_get _ _ Hs) as [pos Hpos]. eauto.
  - reflexivity.
  - exists closed, st', new.
    split; [unfold close_all_positions, bind, get_self; exact E|].
    split; [exact Hwf'|]. split; [exact Hkeys|]. split; [exact Htr|].
    split; [exact Hall|]. split.
    + intros s pos entry Hget He Hz. apply (Hgone s pos entry); auto.
      eapply dict_get_some_keys. exact Hget.
    + intros s Hs. apply Herr.
      destruct (dict_contains_true _ _ Hs) as [pos Hget].
      eapply dict_get_some_keys. exact Hget.
Qed.


Lemma serve_wf (r : request) (st : state W) :
  ledger_wf (self st) -> ledger_wf (self (snd (serve env r st))).
Proof.
  intros Hwf. destruct r as [symbol quantity reason|symbol quantity reason|];
    unfold serve, bind.
  - destruct (execute_buy_spec env symbol quantity reason st)
      as (o & price & t & w' & l' & E).
    rewrite E. simpl. apply ledger_wf_buy. exact Hwf.
  - destruct (execute_sell_spec env symbol quantity reason st)
      as (o & price & t & w' & l' & ps' & E & Hps & _).
    rewrite E. simpl. apply (ledger_wf_sell (self st) symbol); assumption.
  - destruct (close_all_positions_spec st Hwf) as (closed & st' & new & E & Hwf' & _).
    rewrite E. simpl. exact Hwf'.
Qed.

Lemma run_wf (rs : list request) (st : state W) :
  ledger_wf (self st) -> ledger_wf (self (run env rs st)).
Proof.
  revert st. induction rs as [|r rs IH]; intros st Hwf; simpl.
  - exact Hwf.
  - apply IH, serve_wf, Hwf.
Qed.

End LedgerClaims.

(** ** C1: one position per symbol *)

(** C1.  Whatever requests (buy, sell, close all) are served from a fresh
    executor, and however the exchange answers, the ledger never holds two
    entries for the same symbol. *)
Theorem one_position_per_symbol {W : Type} (env : Environment W)
    (requests : list request) (w : W) (symbol : string) :
  (entries_for
     (positions (self (run env requests
                         {| world := w; self := init_executor; log := [] |})))
     symbol <= 1)%nat.
Proof.
  apply nodup_entries_for.
  apply (run_wf env requests {| world := w; self := init_executor; log := [] |}).
  apply ledger_wf_init.
Qed.

(** ** C2: a buy on an open symbol *)

(** C2, as amended.  A buy for a symbol that already has a position does
    not fail: it returns, appends the BUY trade, and replaces the stored
    position by that trade; the set of open symbols is unchanged. *)
Theorem execute_buy_overwrites {W : Type} (env : Environment W)
    (st : state W) (symbol : string) (quantity : R) (reason : string) :
  dict_contains (positions (self st)) symbol = true ->
  exists o price t st',
    execute_buy env symbol quantity reason st = (Ok o, st') /\
    dict_get (positions (self st')) symbol
    = Some (buy_trade symbol quantity price t reason) /\
    dict_keys (positions (self st')) = dict_keys (positions (self st)) /\
    trades (self st')
    = trades (self st) ++ [buy_trade symbol quantity price t reason].
Proof.
  intros Hopen.
  destruct (execute_buy_spec env symbol quantity reason st)
    as (o & price & t & w' & l' & E).
  exists o, price, t. eexists. split; [exact E|]. simpl.
  split; [apply dict_get_set_same|].
  split; [apply dict_keys_set_present; exact Hopen | reflexivity].
Qed.

Lemma execute_buy_overwrites_witness :
  exists o price t st',
    execute_buy demo_env "BTCUSDT" 3 "Manual" two_open = (Ok o, st') /\
    dict_get (positions (self st')) "BTCUSDT"
    = Some (buy_trade "BTCUSDT" 3 price t "Manual") /\
    dict_keys (positions (self st')) = dict_keys (positions (self two_open)) /\
    trades (self st')
    = trades (self two_open) ++ [buy_trade "BTCUSDT" 3 price t "Manual"].
Proof.
  apply (execute_buy_overwrites demo_env two_open "BTCUSDT" 3 "Manual").
  reflexivity.
Defined.

(** C2 fails as stated: the second buy is not rejected. *)
Lemma duplicate_buy_not_rejected : ~ rejects_duplicate_buy demo_env.
Proof.
  intros H.
  destruct (H two_open "BTCUSDT"%string 3 "Manual"%string eq_refl) as [Hraise _].
  destruct (execute_buy_spec demo_env "BTCUSDT" 3 "Manual" two_open)
    as (o & price & t & w' & l' & E).
  rewrite E in Hraise. discriminate Hraise.
Qed.

(** ** C3: a sell without a position *)

(** C3, as amended.  A sell for a symbol without a position does not fail.
    It asks the exchange for the price, places a market sell order for the
    quantity and reads the clock, in this order; it appends to the log of
    trades the SELL record of the symbol, the quantity, the price (0.0 when
    the fetch failed), the time and the reason; it leaves the positions as
    they were and returns the order of the exchange, or the empty order
    when the exchange refused it. *)
Theorem execute_sell_without_position {W : Type} (env : Environment W)
    (st : state W) (symbol : string) (quantity : R) (reason : string) :
  dict_contains (positions (self st)) symbol = false ->
  exists price_answer w1 order_answer w2 t w3 l',
    fetch_ticker_last env symbol (world st) = (price_answer, w1) /\
    create_market_sell_order env symbol quantity w1 = (order_answer, w2) /\
    datetime_now env w2 = (t, w3) /\
    execute_sell env symbol quantity reason st
    = (Ok (placed_order order_answer),
       {| world := w3;
          self := {| positions := positions (self st);
                     trades := trades (self st)
                               ++ [[("symbol", VStr symbol); ("type", VStr "SELL");
                                    ("quantity", VNum quantity);
                                    ("exit_price", VNum (fetched_price price_answer));
                                    ("timestamp", VTime t);
                                    ("reason", VStr reason)]%string] |};
          log := log st ++ l' |}).
Proof.
  intros Hflat. apply dict_contains_false in Hflat.
  destruct (execute_sell_run env symbol quantity reason st)
    as (a1 & w1 & a2 & w2 & t & w3 & l' & ps' & o & F1 & F2 & F3 & E & Hnone & _).
  destruct (Hnone Hflat) as [-> ->].
  exists a1, w1, a2, w2, t, w3, l'.
  split; [exact F1|]. split; [exact F2|]. split; [exact F3|]. exact E.
Qed.

Lemma execute_sell_without_position_witness :
  exists price_answer w1 order_answer w2 t w3 l',
    fetch_ticker_last demo_env "ETHUSDT" (world two_open) = (price_answer, w1) /\
    create_market_sell_order demo_env "ETHUSDT" 1 w1 = (order_answer, w2) /\
    datetime_now demo_env w2 = (t, w3) /\
    execute_sell demo_env "ETHUSDT" 1 "Manual" two_open
    = (Ok (placed_order order_answer),
       {| world := w3;
          self := {| positions := positions (self two_open);
                     trades := trades (self two_open)
                               ++ [[("symbol", VStr "ETHUSDT"); ("type", VStr "SELL");
                                    ("quantity", VNum 1);
                                    ("exit_price", VNum (fetched_price price_answer));
                                    ("timestamp", VTime t);
                                    ("reason", VStr "Manual")]%string] |};
          log := log two_open ++ l' |}).
Proof.
  apply (execute_sell_without_position demo_env two_open "ETHUSDT" 1 "Manual").
  reflexivity.
Defined.

(** C3 fails as stated: the sell is not rejected and the log of trades grows. *)
Lemma sell_without_position_not_rejected :
  ~ rejects_sell_without_position demo_env.
Proof.
  intros H.
  destruct (H (fresh 0) "BTCUSDT"%string 1 "Manual"%string eq_refl) as [Hraise _].
  destruct (execute_sell_spec demo_env "BTCUSDT" 1 "Manual" (fresh 0))
    as (o & price & t & w' & l' & ps' & E & _).
  rewrite E in Hraise. discriminate Hraise.
Qed.

(** ** C4: buy then sell *)

(** C4, as amended.  From a state without a position for the symbol, a buy
    followed by a sell of the same quantity appends exactly the BUY and the
    SELL trade; the SELL trade has an exit price and no [realized_pnl]
    entry; when the entry price is not zero the position is gone and the
    profit [(exit - entry) * quantity] is written to the log. *)
Theorem buy_then_sell_round_trip {W : Type} (env : Environment W)
    (st : state W) (symbol : string) (quantity : R) (r1 r2 : string) :
  dict_contains (positions (self st)) symbol = false ->
  exists o1 o2 entry exit t1 t2 st1 st2,
    execute_buy env symbol quantity r1 st = (Ok o1, st1) /\
    execute_sell env symbol quantity r2 st1 = (Ok o2, st2) /\
    trades (self st2)
    = trades (self st) ++ [buy_trade symbol quantity entry t1 r1;
                           sell_trade symbol quantity exit t2 r2] /\
    dict_get (sell_trade symbol quantity exit t2 r2) "exit_price"
    = Some (VNum exit) /\
    dict_get (sell_trade symbol quantity exit t2 r2) "realized_pnl" = None /\
    (entry <> 0 ->
     positions (self st2) = positions (self st) /\
     dict_contains (positions (self st2)) symbol = false /\
     In (SellExecuted symbol quantity exit
           ((exit - entry) * quantity) ((exit - entry) / entry * 100))
        (log st2)).
Proof.
  intros Hflat. pose proof Hflat as Hnone. apply dict_contains_false in Hnone.
  destruct (execute_buy_spec env symbol quantity r1 st)
    as (o1 & entry & t1 & w1 & l1 & E1).
  match type of E1 with _ = (_, ?s) => set (st1 := s) in * end.
  destruct (execute_sell_spec env symbol quantity r2 st1)
    as (o2 & exit & t2 & w2 & l2 & ps' & E2 & _ & _ & Hdel & _).
  exists o1, o2, entry, exit, t1, t2, st1. eexists.
  split; [exact E1|]. split; [exact E2|]. simpl.
  split; [rewrite <- app_assoc; reflexivity|].
  split; [reflexivity|]. split; [reflexivity|].
  intros Hz.
  destruct (Hdel (buy_trade symbol quantity entry t1 r1) entry) as [-> Hlog].
  - simpl. apply dict_get_set_same.
  - reflexivity.
  - exact Hz.
  - simpl. rewrite dict_del_set_fresh by exact Hnone.
    split; [reflexivity|]. split; [exact Hflat|].
    apply in_or_app. right. exact Hlog.
Qed.

Lemma buy_then_sell_round_trip_witness :
  exists o1 o2 entry exit t1 t2 st1 st2,
    execute_buy demo_env "BTCUSDT" 2 "AI Signal" (fresh 0) = (Ok o1, st1) /\
    execute_sell demo_env "BTCUSDT" 2 "AI Signal" st1 = (Ok o2, st2) /\
    trades (self st2)
    = trades (self (fresh 0))
      ++ [buy_trade "BTCUSDT" 2 entry t1 "AI Signal";
          sell_trade "BTCUSDT" 2 exit t2 "AI Signal"] /\
    dict_get (sell_trade "BTCUSDT" 2 exit t2 "AI Signal") "exit_price"
    = Some (VNum exit) /\
    dict_get (sell_trade "BTCUSDT" 2 exit t2 "AI Signal") "realized_pnl" = None /\
    (entry <> 0 ->
     positions (self st2) = positions (self (fresh 0)) /\
     dict_contains (positions (self st2)) "BTCUSDT" = false /\
     In (SellExecuted "BTCUSDT" 2 exit
           ((exit - entry) * 2) ((exit - entry) / entry * 100))
        (log st2)).
Proof.
  apply (buy_then_sell_round_trip demo_env (fresh 0) "BTCUSDT" 2
           "AI Signal" "AI Signal").
  reflexivity.
Defined.

(** C4 fails as stated: the SELL trade has no [realized_pnl] entry. *)
Lemma sell_trade_has_no_realized_pnl : ~ round_trip_stores_pnl demo_env.
Proof.
  intros H.
  destruct (H (fresh 0) "BTCUSDT"%string 2 "AI Signal"%string eq_refl)
    as [_ (b & s & entry & exit & Htr & _ & _ & _ & _ & Hpnl)].
  destruct (execute_buy_spec demo_env "BTCUSDT" 2 "AI Signal" (fresh 0))
    as (o1 & p1 & t1 & w1 & l1 & E1).
  rewrite E1 in Htr. simpl in Htr.
  match type of Htr with
  | context [execute_sell _ _ _ _ ?s] =>
      destruct (execute_sell_spec demo_env "BTCUSDT" 2 "AI Signal" s)
        as (o2 & p2 & t2 & w2 & l2 & ps' & E2 & _)
  end.
  rewrite E2 in Htr. simpl in Htr.
  injection Htr as _ <-. discriminate Hpnl.
Qed.

(** ** C8: closing every position *)


Lemma two_open_wf : ledger_wf (self two_open).
Proof.
  split; simpl.
  - repeat constructor; simpl; intuition discriminate.
  - repeat constructor; do 4 eexists; reflexivity.
Qed.



(** ** Two runs on the example exchange *)

Ltac run_ledger :=
  unfold close_all_positions, close_loop, close_one, execute_buy, execute_sell,
    get_current_price, place_buy_order, place_sell_order, positions_getitem,
    positions_setitem, positions_delitem, trades_append, getitem_num, float_div,
    of_option, now, call, logger, get_self, set_self, try_except, bind, ret, raise;
  simpl.



(** A buy made while the quote cannot be fetched records the entry price
    0.0; the sell that follows appends its trade, then divides by that
    entry price: the exception is caught, the empty order is returned and
    the position stays in the ledger. *)
Example sell_after_failed_quote_keeps_position :
  let st1 := snd (execute_buy demo_env "DOWNUSDT" 1 "Manual" (fresh 0)) in
  let out := execute_sell demo_env "DOWNUSDT" 1 "Manual" st1 in
  fst out = Ok [] /\
  dict_get (positions (self (snd out))) "DOWNUSDT"
  = Some (buy_trade "DOWNUSDT" 1 0 2 "Manual") /\
  trades (self (snd out))
  = [buy_trade "DOWNUSDT" 1 0 2 "Manual"; sell_trade "DOWNUSDT" 1 0 5 "Manual"] /\
  In (SellFailed ZeroDivisionError) (log (snd out)).
Proof.
  run_ledger.
  destruct (Req_dec_T 0 0) as [_|H]; [|contradiction H; reflexivity].
  simpl. repeat split; auto 10.
Qed.

(** * Further properties of the scoring functions *)

Section MoreRSI.



Lemma zip_with_forall (P P' Q : R -> Prop) (f : R -> R -> R) (a b : array) :
  (forall x y, P x -> P' y -> Q (f x y)) ->
  Forall P a -> Forall P' b -> Forall Q (zip_with f a b).
Proof.
  intros Hf Ha. revert b. induction Ha as [|x a Hx Ha IH]; intros b Hb; simpl.
  - constructor.
  - destruct Hb as [|y b Hy Hb]; constructor; auto.
Qed.






Lemma skipn_forall {A : Type} (P : A -> Prop) (n : nat) (a : list A) :
  Forall P a -> Forall P (skipn n a).
Proof.
  intros Ha. rewrite <- (firstn_skipn n a) in Ha.
  apply Forall_app in Ha. apply Ha.
Qed.




End MoreRSI.





Section MoreNormalizer.

Variable self : TechnicalIndicators.






End MoreNormalizer.




Section MoreScores.

Variable self : TechnicalIndicators.

Lemma item_last_skipn {A : Type} (m : nat) (a : list A) :
  (m < length a)%nat -> item_last (skipn m a) = item_last a.
Proof.
  revert a. induction m as [|m IH]; intros a Hm; [reflexivity|].
  destruct a as [|x a]; simpl in Hm; [lia|].
  destruct a as [|y a]; simpl in Hm; [lia|].
  change (skipn (S m) (x :: y :: a)) with (skipn m (y :: a)).
  rewrite IH by (simpl; lia). reflexivity.
Qed.

Lemma slice_last_forall {A : Type} (P : A -> Prop) (k : nat) (a : list A) :
  Forall P a -> Forall P (slice_last k a).
Proof.
  intros Ha. unfold slice_last. destruct (k =? 0)%nat; [exact Ha|].
  apply skipn_forall. exact Ha.
Qed.

Lemma slice_last_two {A : Type} (k : nat) (a : list A) :
  k <> 1%nat -> (2 <= length a)%nat -> (2 <= length (slice_last k a))%nat.
Proof.
  intros Hk Ha. rewrite slice_last_length.
  destruct (k =? 0)%nat eqn:E; [exact Ha|].
  apply Nat.eqb_neq in E. lia.
Qed.

Lemma item_last_unique (P : R -> Prop) (a : array) (x : R) :
  a <> [] -> Forall P a -> item_last a = Ok x -> P x.
Proof.
  intros Hne Hall Hx. destruct (item_last_all P a Hne Hall) as [y [Hy Py]].
  rewrite Hx in Hy. injection Hy as ->. exact Py.
Qed.

Lemma np_roll1_forall (P : R -> Prop) (a : array) :
  Forall P a -> Forall P (np_roll1 a).
Proof.
  intros Ha. destruct a as [|x a]; [constructor|].
  unfold np_roll1.
  assert (x :: a <> []) as Hne by discriminate.
  rewrite (app_removelast_last 0 Hne) in Ha.
  apply Forall_app in Ha. destruct Ha as [Hinit Hlast].
  inversion Hlast; subst. constructor; assumption.
Qed.

Lemma returns_length (closes : array) :
  length (map (fun q => q - 1) (slice_from1 (np_divide closes (np_roll1 closes))))
  = (length closes - 1)%nat.
Proof.
  rewrite length_map. unfold slice_from1.
  pose proof (ratios_length closes) as Hl.
  destruct (np_divide closes (np_roll1 closes)); simpl in *; lia.
Qed.

(** What [calculate_combined_score] returns on a non-empty series, in
    terms of the four component scores. *)
Lemma calculate_combined_score_ok (closes volumes : array) (pw vw rw ow : R) :
  closes <> [] ->
  exists p v r o raw,
    calculate_price_score self closes = Ok p /\
    calculate_volume_score self volumes = Ok v /\
    item_last (sigmoid_normalize self
                 (rsi_window self (calculate_rsi closes (rsi_period self)))) = Ok r /\
    calculate_volatility_score self closes = Ok o /\
    item_last (calculate_rsi closes (rsi_period self)) = Ok raw /\
    calculate_combined_score self closes volumes pw vw rw ow
    = Ok ((pw * p + vw * v + rw * r + ow * o)
          / (if Req_dec_T (pw + vw + rw + ow) 0 then 1 else pw + vw + rw + ow),
          {| c_price := p; c_volume := v; c_rsi := raw; c_rsi_normalized := r;
             c_volatility := o;
             c_combined :=
               (pw * p + vw * v + rw * r + ow * o)
               / (if Req_dec_T (pw + vw + rw + ow) 0 then 1 else pw + vw + rw + ow) |}).
Proof.
  intros Hne. unfold calculate_combined_score.
  destruct (calculate_price_score_total self closes) as [p Hp].
  destruct (calculate_volume_score_total self volumes) as [v Hv].
  destruct (calculate_volatility_score_total self closes) as [o Ho].
  destruct (item_last_total
              (sigmoid_normalize self
                 (rsi_window self (calculate_rsi closes (rsi_period self)))))
    as [r Hr].
  { apply sigmoid_normalize_nonempty. unfold rsi_window.
    apply slice_last_nonempty, calculate_rsi_nonempty, Hne. }
  destruct (item_last_total (calculate_rsi closes (rsi_period self))) as [raw Hraw].
  { apply calculate_rsi_nonempty, Hne. }
  exists p, v, r, o, raw. rewrite Hp, Hv, Ho. simpl. rewrite Hr. simpl.
  rewrite Hraw. simpl. auto 10.
Qed.

End MoreScores.

(** X5.  With [lookback = 1] the window of [calculate_volume_score] is the
    last volume alone, which [sigmoid_normalize] returns as it is: the
    volume score of a series of two volumes or more is the raw last
    volume. *)
Theorem calculate_volume_score_lookback_one (self : TechnicalIndicators)
    (volumes : array) :
  lookback self = 1%nat -> (2 <= length volumes)%nat ->
  calculate_volume_score self volumes = item_last volumes.
Proof.
  intros Hk Hlen. unfold calculate_volume_score.
  assert ((length volumes <? 2)%nat = false) as -> by (apply Nat.ltb_ge; exact Hlen).
  rewrite sigmoid_normalize_short.
  - rewrite Hk. unfold slice_last. change (1 =? 0)%nat with false. cbv iota.
    apply item_last_skipn. lia.
  - rewrite slice_last_length, Hk. change (1 =? 0)%nat with false. cbv iota. lia.
Qed.

Lemma calculate_volume_score_lookback_one_witness :
  calculate_volume_score narrow_indicators [10; 20; 12345] = Ok 12345.
Proof.
  rewrite (calculate_volume_score_lookback_one narrow_indicators [10; 20; 12345]).
  - reflexivity.
  - reflexivity.
  - simpl. lia.
Defined.

(** X6.  With a lookback other than 1, a constant volume series of two
    points or more whose value is an integer [z] with [len * |z| <= 2^53]
    has the neutral volume score 50. *)
Theorem calculate_volume_score_constant (self : TechnicalIndicators)
    (volumes : array) :
  lookback self <> 1%nat -> (2 <= length volumes)%nat ->
  exact_constant_series volumes ->
  calculate_volume_score self volumes = Ok 50.
Proof.
  intros Hk Hlen [z [Hc _]]. unfold calculate_volume_score.
  assert ((length volumes <? 2)%nat = false) as -> by (apply Nat.ltb_ge; exact Hlen).
  rewrite sigmoid_normalize_constant.
  - destruct (item_last_all (fun y => y = 50)
                (np_full_like (slice_last (lookback self) volumes) 50))
      as [x [Hx ->]]; [| |exact Hx].
    + apply length_nonempty. rewrite np_full_like_length.
      pose proof (slice_last_two (lookback self) volumes Hk Hlen). lia.
    + unfold np_full_like. apply Forall_map, Forall_forall. reflexivity.
  - apply slice_last_two; assumption.
  - exists (IZR z). apply slice_last_forall. exact Hc.
Qed.

Lemma calculate_volume_score_constant_witness :
  calculate_volume_score default_indicators [10; 10; 10; 10] = Ok 50.
Proof.
  apply calculate_volume_score_constant.
  - simpl. lia.
  - simpl. lia.
  - exists 10%Z. split; [repeat constructor | simpl; lia].
Defined.

(** X7.  A flat series of three or more equal positive closes has the
    neutral price score 50. *)
Theorem calculate_price_score_flat (self : TechnicalIndicators)
    (closes : array) (c : R) :
  0 < c -> (3 <= length closes)%nat -> Forall (fun x => x = c) closes ->
  calculate_price_score self closes = Ok 50.
Proof.
  intros _ Hlen Hc. unfold calculate_price_score.
  assert ((length closes <? 2)%nat = false) as -> by (apply Nat.ltb_ge; lia).
  rewrite sigmoid_normalize_constant.
  - match goal with
    | |- item_last (np_full_like ?a 50) = _ =>
        destruct (item_last_all (fun y => y = 50) (np_full_like a 50))
          as [x [Hx ->]]; [| |exact Hx]
    end.
    + apply length_nonempty. rewrite np_full_like_length, returns_length. lia.
    + unfold np_full_like. apply Forall_map, Forall_forall. reflexivity.
  - rewrite returns_length. lia.
  - exists (c / c - 1). apply Forall_map.
    assert (Forall (fun q => q = c / c) (np_divide closes (np_roll1 closes))) as Hq.
    { unfold np_divide.
      apply (zip_with_forall (fun x => x = c) (fun x => x = c)).
      - intros x y -> ->. reflexivity.
      - exact Hc.
      - apply np_roll1_forall. exact Hc. }
    unfold slice_from1. destruct Hq as [|q qs Hq Hqs]; simpl.
    + constructor.
    + eapply Forall_impl; [|exact Hqs]. intros a ->. reflexivity.
Qed.

Lemma calculate_price_score_flat_witness :
  calculate_price_score default_indicators [7; 7; 7; 7] = Ok 50.
Proof.
  apply (calculate_price_score_flat default_indicators [7; 7; 7; 7] 7).
  - lra.
  - simpl. lia.
  - repeat constructor.
Defined.




Lemma sigmoid_normalize_all_neutral (self : TechnicalIndicators) (data : array) :
  Forall (fun x => x = 50) data ->
  Forall (fun y => y = 50) (sigmoid_normalize self data).
Proof.
  intros Hd. destruct (le_lt_dec 2 (length data)) as [Hlen|Hshort].
  - rewrite sigmoid_normalize_constant; [| exact Hlen | exists 50; exact Hd].
    unfold np_full_like. apply Forall_map, Forall_forall. reflexivity.
  - rewrite sigmoid_normalize_short by exact Hshort. exact Hd.
Qed.

(** X9.  On a non-empty close series shorter than [rsi_period + 1] the raw
    RSI component and the normalized RSI component are both 50. *)
Theorem calculate_combined_score_short_series (self : TechnicalIndicators)
    (closes volumes : array) (pw vw rw ow : R) :
  closes <> [] -> (length closes < rsi_period self + 1)%nat ->
  exists (combined : R) (cs : components),
    calculate_combined_score self closes volumes pw vw rw ow = Ok (combined, cs) /\
    c_rsi cs = 50 /\ c_rsi_normalized cs = 50.
Proof.
  intros Hne Hshort.
  destruct (calculate_combined_score_ok self closes volumes pw vw rw ow Hne)
    as (p & v & r & o & raw & _ & _ & Hr & _ & Hraw & E).
  assert (Forall (fun x => x = 50) (calculate_rsi closes (rsi_period self))) as Hall.
  { unfold calculate_rsi. apply Nat.ltb_lt in Hshort. rewrite Hshort.
    unfold np_full_like. apply Forall_map, Forall_forall. reflexivity. }
  eexists. eexists. split; [exact E|]. simpl. split.
  - apply (item_last_unique (fun x => x = 50) _ raw) in Hraw; auto.
    apply calculate_rsi_nonempty, Hne.
  - apply (item_last_unique (fun x => x = 50) _ r) in Hr; auto.
    + apply sigmoid_normalize_nonempty. unfold rsi_window.
      apply slice_last_nonempty, calculate_rsi_nonempty, Hne.
    + apply sigmoid_normalize_all_neutral. unfold rsi_window.
      apply slice_last_forall. exact Hall.
Qed.

Lemma calculate_combined_score_short_series_witness :
  exists (combined : R) (cs : components),
    calculate_combined_score default_indicators
      [100; 101; 99; 105; 110] [10; 12; 9; 15; 11] 70 10 10 10 = Ok (combined, cs) /\
    c_rsi cs = 50 /\ c_rsi_normalized cs = 50.
Proof.
  apply calculate_combined_score_short_series.
  - discriminate.
  - simpl. lia.
Defined.



(** * Properties of [get_multi_timeframe_scores] *)

Import MultiTimeframe.

Section MultiTimeframeFacts.

Variable weights : dict R.

Lemma dict_get_in {V : Type} (d : dict V) (k : string) (v : V) :
  dict_get d k = Some v -> In (k, v) d.
Proof.
  induction d as [|[k' v'] d IH]; simpl; [discriminate|].
  destruct (String.eqb k' k) eqn:E.
  - apply String.eqb_eq in E. subst k'. intros [= ->]. left. reflexivity.
  - intros H. right. auto.
Qed.

Lemma score_frames_spec (items : list (string * DataFrame)) :
  forall results : dict frame_score,
    NoDup (map fst items) ->
    (forall k, In k (map fst items) -> dict_get results k = None) ->
    exists results',
      score_frames default_indicators items weights results = Ok results' /\
      dict_keys results' = dict_keys results ++ map fst items /\
      (forall k, ~ In k (map fst items) -> dict_get results' k = dict_get results k) /\
      (forall tf df, In (tf, df) items ->
         ((length df < 2)%nat -> dict_get results' tf = Some (50, None)) /\
         ((2 <= length df)%nat ->
          exists score cs,
            dict_get results' tf = Some (score, Some cs) /\
            calculate_combined_score default_indicators
              (close_values df) (volume_values df)
              (weights_get weights "price" 70) (weights_get weights "volume" 10)
              (weights_get weights "rsi" 10) (weights_get weights "volatility" 10)
            = Ok (score, cs))).
Proof.
  induction items as [|[tf df] rest IH]; intros results Hnd Hfresh.
  - exists results. simpl. rewrite app_nil_r. repeat split; auto; contradiction.
  - simpl in Hnd. inversion Hnd as [|x l Hout Hnd']; subst.
    assert (forall v : frame_score,
              forall k, In k (map fst rest) ->
                dict_get (dict_set results tf v) k = None) as Hfresh'.
    { intros v k Hk. rewrite dict_get_set_other.
      - apply Hfresh. right. exact Hk.
      - intros ->. contradiction. }
    assert (forall v : frame_score,
              dict_keys (dict_set results tf v) ++ map fst rest
              = dict_keys results ++ map fst ((tf, df) :: rest)) as Hkeys.
    { intros v. rewrite dict_keys_set_absent by (apply Hfresh; left; reflexivity).
      rewrite <- app_assoc. reflexivity. }
    simpl score_frames. destruct (length df <? 2)%nat eqn:Elen.
    + apply Nat.ltb_lt in Elen.
      destruct (IH (dict_set results tf (50, None)) Hnd' (Hfresh' _))
        as (results' & E & Hk & Hkeep & Hitems).
      exists results'. split; [exact E|]. split; [rewrite Hk; apply Hkeys|].
      split.
      * intros k Hk'. simpl in Hk'. rewrite Hkeep by tauto.
        apply dict_get_set_other. intros ->. tauto.
      * intros tf' df' [[= <- <-]|Hin]; [|apply Hitems; exact Hin].
        rewrite Hkeep by exact Hout. rewrite dict_get_set_same.
        split; [reflexivity | lia].
    + apply Nat.ltb_ge in Elen.
      destruct (calculate_combined_score_ok default_indicators
                  (close_values df) (volume_values df)
                  (weights_get weights "price" 70) (weights_get weights "volume" 10)
                  (weights_get weights "rsi" 10) (weights_get weights "volatility" 10))
        as (p & v & r & o & raw & _ & _ & _ & _ & _ & Esc).
      { apply length_nonempty. unfold close_values. rewrite length_map. lia. }
      rewrite Esc. simpl rbind.
      match goal with
      | |- context [dict_set results tf ?v] =>
          destruct (IH (dict_set results tf v) Hnd' (Hfresh' _))
            as (results' & E & Hk & Hkeep & Hitems)
      end.
      exists results'. split; [exact E|]. split; [rewrite Hk; apply Hkeys|].
      split.
      * intros k Hk'. simpl in Hk'. rewrite Hkeep by tauto.
        apply dict_get_set_other. intros ->. tauto.
      * intros tf' df' [[= <- <-]|Hin]; [|apply Hitems; exact Hin].
        rewrite Hkeep by exact Hout. rewrite dict_get_set_same.
        split; [lia|]. intros _. eexists. eexists.
        split; [reflexivity|]. rewrite Esc. reflexivity.
Qed.

(** X11.  [get_multi_timeframe_scores] never raises and returns one entry
    per timeframe, in the order of the input.  A frame of fewer than two
    rows gets the neutral score 50 with empty components; every other
    frame gets what [calculate_combined_score] returns on its closes and
    volumes, with the weights looked up with the defaults 70/10/10/10. *)
Theorem get_multi_timeframe_scores_total (ohlcv_dict : dict DataFrame) :
  NoDup (dict_keys ohlcv_dict) ->
  exists results,
    get_multi_timeframe_scores ohlcv_dict weights = Ok results /\
    dict_keys results = dict_keys ohlcv_dict /\
    (forall tf df, dict_get ohlcv_dict tf = Some df ->
       ((length df < 2)%nat -> dict_get results tf = Some (50, None)) /\
       ((2 <= length df)%nat ->
        exists score cs,
          dict_get results tf = Some (score, Some cs) /\
          calculate_combined_score default_indicators
            (close_values df) (volume_values df)
            (weights_get weights "price" 70) (weights_get weights "volume" 10)
            (weights_get weights "rsi" 10) (weights_get weights "volatility" 10)
          = Ok (score, cs))).
Proof.
  intros Hnd. unfold get_multi_timeframe_scores.
  destruct (score_frames_spec ohlcv_dict [] Hnd) as (results & E & Hk & _ & Hitems).
  { reflexivity. }
  exists results. split; [exact E|]. split; [exact Hk|].
  intros tf df Hget. apply Hitems. apply dict_get_in. exact Hget.
Qed.

End MultiTimeframeFacts.

Lemma get_multi_timeframe_scores_total_witness :
  exists results,
    get_multi_timeframe_scores sample_frames [] = Ok results /\
    dict_keys results = ["1h"; "1d"]%string /\
    dict_get results "1d" = Some (50, None).
Proof.
  destruct (get_multi_timeframe_scores_total [] sample_frames)
    as (results & E & Hk & Hitems).
  - simpl. repeat constructor; simpl; intuition discriminate.
  - exists results. split; [exact E|]. split; [exact Hk|].
    apply (Hitems "1d"%string [{| close := 100; volume := 31 |}]).
    + reflexivity.
    + simpl. lia.
Defined.

(** * Further properties of the position ledger *)

Import App.

Section MoreLedger.

Context {W : Type} (env : Environment W).

Ltac run_method :=
  unfold try_except, bind, call, now, trades_append, positions_setitem,
    get_self, set_self, logger, ret, raise; simpl.

Lemma run_app (rs1 rs2 : list request) (st : state W) :
  run env (rs1 ++ rs2) st = run env rs2 (run env rs1 st).
Proof.
  revert st. induction rs1 as [|r rs1 IH]; intros st; simpl; auto.
Qed.

(** One request: the ledger stays well formed and the log of trades is
    extended. *)
Lemma serve_extends (r : request) (st : state W) :
  ledger_wf (self st) ->
  ledger_wf (self (snd (serve env r st))) /\
  exists new, trades (self (snd (serve env r st))) = trades (self st) ++ new.
Proof.
  intros Hwf. split; [apply serve_wf; exact Hwf|].
  destruct r as [symbol quantity reason|symbol quantity reason|];
    unfold serve, bind.
  - destruct (execute_buy_spec env symbol quantity reason st)
      as (o & price & t & w' & l' & E).
    rewrite E. simpl. eauto.
  - destruct (execute_sell_spec env symbol quantity reason st)
      as (o & price & t & w' & l' & ps' & E & _).
    rewrite E. simpl. eauto.
  - destruct (close_all_positions_spec env st Hwf)
      as (closed & st' & new & E & _ & _ & Htr & _).
    rewrite E. simpl. eauto.
Qed.

Lemma run_extends (rs : list request) (st : state W) :
  ledger_wf (self st) ->
  exists new, trades (self (run env rs st)) = trades (self st) ++ new.
Proof.
  revert st. induction rs as [|r rs IH]; intros st Hwf; simpl.
  - exists []. rewrite app_nil_r. reflexivity.
  - destruct (serve_extends r st Hwf) as [Hwf' [new1 E1]].
    destruct (IH _ Hwf') as [new2 E2].
    exists (new1 ++ new2). rewrite E2, E1, app_assoc. reflexivity.
Qed.

(** X12.  The log of trades is append-only: along any run from a fresh
    executor, the log after a prefix of the requests is a prefix of the
    log after all of them. *)
Theorem trade_log_append_only (w : W) (rs1 rs2 : list request) :
  exists new,
    trades (self (run env (rs1 ++ rs2)
                    {| world := w; self := init_executor; log := [] |}))
    = trades (self (run env rs1
                      {| world := w; self := init_executor; log := [] |})) ++ new.
Proof.
  rewrite run_app. apply run_extends.
  apply run_wf. apply ledger_wf_init.
Qed.

(** X13.  Every buy and every sell request appends exactly one trade,
    whatever the exchange answers: after a run of buy and sell requests
    the log has grown by the number of requests. *)
Theorem buy_sell_append_one_trade_each (rs : list request) (st : state W) :
  Forall (fun r => r <> CloseAll) rs ->
  length (trades (self (run env rs st)))
  = (length (trades (self st)) + length rs)%nat.
Proof.
  intros Hrs. revert st. induction Hrs as [|r rs Hr _ IH]; intros st; simpl.
  - lia.
  - rewrite IH. destruct r as [symbol quantity reason|symbol quantity reason|];
      unfold serve, bind.
    + destruct (execute_buy_spec env symbol quantity reason st)
        as (o & price & t & w' & l' & E).
      rewrite E. simpl. rewrite length_app. simpl. lia.
    + destruct (execute_sell_spec env symbol quantity reason st)
        as (o & price & t & w' & l' & ps' & E & _).
      rewrite E. simpl. rewrite length_app. simpl. lia.
    + contradiction.
Qed.

(** X14.  A buy or a sell for one symbol leaves the position of every
    other symbol as it was. *)
Theorem other_positions_untouched (st : state W) (symbol other : string)
    (quantity : R) (reason : string) :
  other <> symbol ->
  dict_get (positions (self (snd (execute_buy env symbol quantity reason st)))) other
  = dict_get (positions (self st)) other /\
  dict_get (positions (self (snd (execute_sell env symbol quantity reason st)))) other
  = dict_get (positions (self st)) other.
Proof.
  intros Hne. split.
  - destruct (execute_buy_spec env symbol quantity reason st)
      as (o & price & t & w' & l' & E).
    rewrite E. simpl. apply dict_get_set_other. congruence.
  - destruct (execute_sell_spec env symbol quantity reason st)
      as (o & price & t & w' & l' & ps' & E & [->| ->] & _);
      rewrite E; simpl; [reflexivity|].
    apply dict_get_del_other. congruence.
Qed.

(** X15.  When the exchange refuses the buy order, [execute_buy] still
    records the BUY trade and the position, and returns the empty order. *)
Theorem execute_buy_refused_order_still_recorded (st : state W)
    (symbol : string) (quantity : R) (reason : string) :
  buy_order_fails env symbol ->
  exists price t st',
    execute_buy env symbol quantity reason st = (Ok [], st') /\
    dict_get (positions (self st')) symbol
    = Some (buy_trade symbol quantity price t reason) /\
    trades (self st')
    = trades (self st) ++ [buy_trade symbol quantity price t reason].
Proof.
  intros Hfail.
  unfold execute_buy, get_current_price, place_buy_order. run_method.
  destruct (fetch_ticker_last env symbol (world st)) as [[p|e] w1]; simpl;
    destruct (Hfail quantity w1) as (e' & w2 & ->); simpl;
    destruct (datetime_now env w2) as [t w3]; simpl;
    do 3 eexists; (split; [reflexivity|]); simpl;
    (split; [apply dict_get_set_same | reflexivity]).
Qed.

(** X16.  A sell on a position whose entry price is 0.0 appends the SELL
    trade, then fails on the division by the entry price: the exception is
    caught, the empty order is returned and the position stays open. *)
Theorem execute_sell_zero_entry_price (st : state W) (symbol : string)
    (quantity : R) (reason : string) (pos : trade) :
  dict_get (positions (self st)) symbol = Some pos ->
  dict_get pos "entry_price" = Some (VNum 0) ->
  exists price t st',
    execute_sell env symbol quantity reason st = (Ok [], st') /\
    positions (self st') = positions (self st) /\
    trades (self st')
    = trades (self st) ++ [sell_trade symbol quantity price t reason] /\
    In (SellFailed ZeroDivisionError) (log st').
Proof.
  intros Hpos Hentry.
  unfold execute_sell, get_current_price, place_sell_order. run_method.
  destruct (fetch_ticker_last env symbol (world st)) as [[p|e] w1]; simpl;
    destruct (create_market_sell_order env symbol quantity w1) as [[o|e'] w2];
    simpl; destruct (datetime_now env w2) as [t w3]; simpl.
  all: unfold dict_contains, positions_getitem, positions_delitem, getitem_num,
         float_div, of_option; run_method.
  all: repeat (progress (simpl; unfold dict_contains; rewrite ?Hpos, ?Hentry)).
  all: destruct (Req_dec_T 0 0) as [_|Hnz]; [|contradiction Hnz; reflexivity].
  all: simpl; do 3 eexists; (split; [reflexivity|]); simpl.
  all: repeat split; apply in_or_app; right; simpl; auto.
Qed.

End MoreLedger.

Lemma buy_sell_append_one_trade_each_witness :
  length (trades (self (run demo_env
                          [Buy "BTCUSDT" 1 "Manual"; Sell "DOWNUSDT" 1 "Manual"]
                          (fresh 0))))
  = (length (trades (self (fresh 0))) + 2)%nat.
Proof.
  apply (buy_sell_append_one_trade_each demo_env
           [Buy "BTCUSDT" 1 "Manual"; Sell "DOWNUSDT" 1 "Manual"] (fresh 0)).
  repeat constructor; discriminate.
Defined.

Lemma other_positions_untouched_witness :
  dict_get (positions (self (snd (execute_buy demo_env "BTCUSDT" 3 "Manual" two_open))))
    "DOWNUSDT"
  = dict_get (positions (self two_open)) "DOWNUSDT" /\
  dict_get (positions (self (snd (execute_sell demo_env "BTCUSDT" 3 "Manual" two_open))))
    "DOWNUSDT"
  = dict_get (positions (self two_open)) "DOWNUSDT".
Proof.
  apply other_positions_untouched. discriminate.
Defined.

Lemma demo_down_buy_fails : buy_order_fails demo_env "DOWNUSDT".
Proof.
  intros quantity w. exists ProviderError, (S w). reflexivity.
Qed.

Lemma execute_buy_refused_order_still_recorded_witness :
  exists price t st',
    execute_buy demo_env "DOWNUSDT" 1 "Manual" (fresh 0) = (Ok [], st') /\
    dict_get (positions (self st')) "DOWNUSDT"
    = Some (buy_trade "DOWNUSDT" 1 price t "Manual") /\
    trades (self st')
    = trades (self (fresh 0)) ++ [buy_trade "DOWNUSDT" 1 price t "Manual"].
Proof.
  apply execute_buy_refused_order_still_recorded. exact demo_down_buy_fails.
Defined.

Lemma execute_sell_zero_entry_price_witness :
  exists price t st',
    execute_sell demo_env "DOWNUSDT" 1 "Manual"
      (snd (execute_buy demo_env "DOWNUSDT" 1 "Manual" (fresh 0))) = (Ok [], st') /\
    positions (self st')
    = positions (self (snd (execute_buy demo_env "DOWNUSDT" 1 "Manual" (fresh 0)))) /\
    trades (self st')
    = trades (self (snd (execute_buy demo_env "DOWNUSDT" 1 "Manual" (fresh 0))))
      ++ [sell_trade "DOWNUSDT" 1 price t "Manual"] /\
    In (SellFailed ZeroDivisionError) (log st').
Proof.
  apply (execute_sell_zero_entry_price demo_env _ "DOWNUSDT" 1 "Manual"
           (buy_trade "DOWNUSDT" 1 0 2 "Manual")).
  - reflexivity.
  - reflexivity.
Defined.

Section CloseAllMore.

Context {W : Type} (env : Environment W).

Lemma dict_all_none_empty {V : Type} (d : dict V) :
  (forall k, dict_get d k = None) -> d = [].
Proof.
  destruct d as [|[k v] d]; [reflexivity|].
  intros H. specialize (H k). simpl in H. rewrite String.eqb_refl in H.
  discriminate.
Qed.

Lemma dict_get_del_subset {V : Type} (d : dict V) (k k' : string) (v : V) :
  NoDup (dict_keys d) ->
  dict_get (dict_del d k) k' = Some v -> dict_get d k' = Some v.
Proof.
  intros Hnd. destruct (string_dec k k') as [<-|Hne].
  - rewrite dict_get_del_same by exact Hnd. discriminate.
  - rewrite dict_get_del_other by exact Hne. auto.
Qed.

(** The loop of [close_all_positions] only removes positions. *)
Lemma close_loop_subset (symbols : list string) :
  forall (closed : dict closed_entry) (st : state W),
    ledger_wf (self st) ->
    NoDup symbols ->
    (forall s, In s symbols -> exists pos, dict_get (positions (self st)) s = Some pos) ->
    forall s pos,
      dict_get (positions (self (snd (close_loop env symbols closed st)))) s = Some pos ->
      dict_get (positions (self st)) s = Some pos.
Proof.
  induction symbols as [|symbol rest IH]; intros closed st Hwf Hnd Hpos s pos.
  - simpl. auto.
  - inversion Hnd as [|x l Hout Hnd']; subst.
    destruct (Hpos symbol (or_introl eq_refl)) as (p0 & Hget).
    destruct (ledger_wf_lookup _ _ _ Hwf Hget) as (q & entry & t0 & r0 & ->).
    destruct (close_one_spec env symbol closed st q entry t0 r0 Hget)
      as (o & price & price' & t & w1 & l1 & ps' & E1 & Hps & _).
    simpl close_loop. unfold bind. rewrite E1. intros Hafter.
    apply IH in Hafter; simpl in *.
    + destruct Hps as [->| ->]; [exact Hafter|].
      eapply dict_get_del_subset; [apply Hwf | exact Hafter].
    + apply (ledger_wf_sell (self st) symbol); assumption.
    + exact Hnd'.
    + intros s' Hs'. destruct (Hpos s' (or_intror Hs')) as (p' & Hp').
      exists p'. destruct Hps as [->| ->]; [exact Hp'|].
      rewrite dict_get_del_other; [exact Hp'|]. intros ->. contradiction.
Qed.

Lemma close_all_positions_subset (st : state W) :
  ledger_wf (self st) ->
  forall s pos,
    dict_get (positions (self (snd (close_all_positions env st)))) s = Some pos ->
    dict_get (positions (self st)) s = Some pos.
Proof.
  intros Hwf. unfold close_all_positions, bind, get_self.
  apply close_loop_subset; [exact Hwf | apply Hwf |].
  intros s Hs. apply dict_keys_get. exact Hs.
Qed.

(** X17.  On a well-formed ledger in which no position has the entry price
    0.0, [close_all_positions] leaves no position open, whatever the
    exchange answers; its result has as many entries as there were
    positions. *)
Theorem close_all_positions_empties_ledger (st : state W) :
  ledger_wf (self st) ->
  (forall s pos, dict_get (positions (self st)) s = Some pos ->
     dict_get pos "entry_price" <> Some (VNum 0)) ->
  exists closed st',
    close_all_positions env st = (Ok closed, st') /\
    positions (self st') = [] /\
    length closed = length (positions (self st)).
Proof.
  intros Hwf Hentry.
  destruct (close_loop_spec env (positions (self st))
              (dict_keys (positions (self st))) [] st)
    as (closed & st' & new & E & _ & Hkeys & _ & _ & Hkeep & Hgone & _).
  - exact Hwf.
  - apply Hwf.
  - intros s Hs. destruct (dict_keys_get _ _ Hs) as [pos Hpos]. eauto.
  - reflexivity.
  - exists closed, st'.
    split; [unfold close_all_positions, bind, get_self; exact E|].
    split.
    + apply dict_all_none_empty. intros k.
      destruct (dict_get (positions (self st)) k) as [pos|] eqn:Hk.
      * destruct (ledger_wf_lookup _ _ _ Hwf Hk) as (q & entry & t0 & r0 & ->).
        apply (Hgone k (buy_trade k q entry t0 r0) entry).
        -- eapply dict_get_some_keys. exact Hk.
        -- exact Hk.
        -- reflexivity.
        -- intros ->. apply (Hentry _ _ Hk). reflexivity.
      * rewrite Hkeep; [exact Hk|]. apply dict_get_none_keys. exact Hk.
    + apply (f_equal (@length string)) in Hkeys. unfold dict_keys in Hkeys.
      simpl in Hkeys. rewrite !length_map in Hkeys. exact Hkeys.
Qed.

(** Every position is a BUY trade of the log. *)
Lemma serve_positions_logged (r : request) (st : state W) :
  ledger_wf (self st) ->
  (forall s pos, dict_get (positions (self st)) s = Some pos ->
     In pos (trades (self st))) ->
  forall s pos,
    dict_get (positions (self (snd (serve env r st)))) s = Some pos ->
    In pos (trades (self (snd (serve env r st)))).
Proof.
  intros Hwf Hin s pos.
  destruct r as [symbol quantity reason|symbol quantity reason|].
  - unfold serve, bind.
    destruct (execute_buy_spec env symbol quantity reason st)
      as (o & price & t & w' & l' & E).
    rewrite E. simpl. intros Hget. apply in_or_app.
    destruct (string_dec symbol s) as [<-|Hne].
    + rewrite dict_get_set_same in Hget. injection Hget as <-.
      right. left. reflexivity.
    + rewrite dict_get_set_other in Hget by exact Hne. left. eauto.
  - unfold serve, bind.
    destruct (execute_sell_spec env symbol quantity reason st)
      as (o & price & t & w' & l' & ps' & E & Hps & _).
    rewrite E. simpl. intros Hget. apply in_or_app. left.
    destruct Hps as [->| ->]; [eauto|].
    apply (Hin s). eapply dict_get_del_subset; [apply Hwf | exact Hget].
  - pose proof (close_all_positions_subset st Hwf s pos) as Hsub.
    destruct (close_all_positions_spec env st Hwf)
      as (closed & st' & new & E & _ & _ & Htr & _).
    unfold serve, bind. rewrite E in *. simpl in *. intros Hget.
    rewrite Htr. apply in_or_app. left. eauto.
Qed.

Lemma run_positions_logged (rs : list request) (st : state W) :
  ledger_wf (self st) ->
  (forall s pos, dict_get (positions (self st)) s = Some pos ->
     In pos (trades (self st))) ->
  forall s pos,
    dict_get (positions (self (run env rs st))) s = Some pos ->
    In pos (trades (self (run env rs st))).
Proof.
  revert st. induction rs as [|r rs IH]; intros st Hwf Hin; simpl.
  - exact Hin.
  - apply IH; [apply serve_wf, Hwf | apply serve_positions_logged; assumption].
Qed.

(** X18.  Along any run from a fresh executor, every open position is the
    BUY trade that opened it, for its own symbol, and that trade is in the
    log of trades. *)
Theorem open_position_is_logged_buy (w : W) (rs : list request)
    (symbol : string) (pos : trade) :
  dict_get (positions (self (run env rs
              {| world := w; self := init_executor; log := [] |}))) symbol
  = Some pos ->
  In pos (trades (self (run env rs
            {| world := w; self := init_executor; log := [] |}))) /\
  exists quantity price t reason,
    pos = buy_trade symbol quantity price t reason.
Proof.
  intros Hget. split.
  - eapply run_positions_logged; [apply ledger_wf_init | | exact Hget].
    simpl. discriminate.
  - eapply ledger_wf_lookup; [|exact Hget].
    apply run_wf. apply ledger_wf_init.
Qed.

End CloseAllMore.

Lemma close_all_positions_empties_ledger_witness :
  exists closed st',
    close_all_positions demo_env two_open = (Ok closed, st') /\
    positions (self st') = [] /\
    length closed = length (positions (self two_open)).
Proof.
  apply close_all_positions_empties_ledger.
  - exact two_open_wf.
  - intros s pos Hget. apply dict_get_in in Hget. simpl in Hget.
    destruct Hget as [Hp|[Hp|[]]]; injection Hp as <- <-; simpl;
      intros [= H]; lra.
Defined.

Lemma open_position_is_logged_buy_witness :
  In (buy_trade "BTCUSDT" 1 100 2 "Manual")
     (trades (self (run demo_env [Buy "BTCUSDT" 1 "Manual"; Sell "ETHUSDT" 1 "Manual"]
                      {| world := 0%nat; self := init_executor; log := [] |}))) /\
  exists quantity price t reason,
    buy_trade "BTCUSDT" 1 100 2 "Manual" = buy_trade "BTCUSDT" quantity price t reason.
Proof.
  apply (open_position_is_logged_buy demo_env 0%nat
           [Buy "BTCUSDT" 1 "Manual"; Sell "ETHUSDT" 1 "Manual"] "BTCUSDT").
  reflexivity.
Defined.

(** * The bot loop of app.py *)

Section BotLoopFacts.

Context {W : Type} (env : Environment W).

(** X19.  The bot loop does nothing for a symbol that is open unless its
    score is below the sell threshold, and nothing for a symbol that is
    flat unless its score is above the buy threshold: it never buys over
    an open position and never sells without one. *)
Theorem trade_on_score_idle (st : state W) (symbol : string) (score : R) :
  (dict_contains (positions (self st)) symbol = true /\ SELL_THRESHOLD <= score) \/
  (dict_contains (positions (self st)) symbol = false /\ score <= BUY_THRESHOLD) ->
  trade_on_score env symbol score st = (Ok tt, st).
Proof.
  unfold trade_on_score, bind, get_self, ret, BUY_THRESHOLD, SELL_THRESHOLD.
  intros [[Hopen Hs]|[Hflat Hs]].
  - rewrite Hopen. destruct (Rgt_dec score 70); simpl;
      (destruct (Rlt_dec score 30); [lra|]); reflexivity.
  - rewrite Hflat. destruct (Rgt_dec score 70); [lra|]. simpl.
    destruct (Rlt_dec score 30); reflexivity.
Qed.

(** X20.  For a flat symbol with a score above the buy threshold the loop
    buys the fixed quantity 0.01: the symbol is open afterwards, with that
    quantity, and one BUY trade with reason "AI Signal" is appended. *)
Theorem trade_on_score_buys (st : state W) (symbol : string) (score : R) :
  dict_contains (positions (self st)) symbol = false -> BUY_THRESHOLD < score ->
  exists price t st',
    trade_on_score env symbol score st = (Ok tt, st') /\
    dict_get (positions (self st')) symbol
    = Some (buy_trade symbol (1 / 100) price t "AI Signal") /\
    trades (self st')
    = trades (self st) ++ [buy_trade symbol (1 / 100) price t "AI Signal"].
Proof.
  intros Hflat Hs.
  destruct (execute_buy_spec env symbol (1 / 100) "AI Signal" st)
    as (o & price & t & w' & l' & E).
  exists price, t. eexists.
  unfold trade_on_score, bind, get_self, ret, BUY_THRESHOLD in *.
  rewrite Hflat. destruct (Rgt_dec score 70) as [_|Hn]; [|exfalso; lra]. simpl.
  rewrite E. split; [reflexivity|]. simpl.
  split; [apply dict_get_set_same | reflexivity].
Qed.

(** X21.  For an open symbol of a well-formed ledger with a score below the
    sell threshold the loop sells the quantity recorded in the position:
    one SELL trade for that quantity is appended, and the position is
    closed when its entry price is not zero. *)
Theorem trade_on_score_sells (st : state W) (symbol : string) (score : R)
    (quantity entry : R) (t0 : nat) (reason : string) :
  dict_get (positions (self st)) symbol
  = Some (buy_trade symbol quantity entry t0 reason) ->
  score < SELL_THRESHOLD ->
  exists price t st',
    trade_on_score env symbol score st = (Ok tt, st') /\
    trades (self st')
    = trades (self st) ++ [sell_trade symbol quantity price t "AI Signal"] /\
    (entry <> 0 ->
     positions (self st') = dict_del (positions (self st)) symbol).
Proof.
  intros Hget Hs.
  destruct (execute_sell_spec env symbol quantity "AI Signal" st)
    as (o & price & t & w' & l' & ps' & E & _ & _ & Hdel & _).
  exists price, t. eexists.
  unfold trade_on_score, bind, get_self, ret, BUY_THRESHOLD, SELL_THRESHOLD in *.
  assert (dict_contains (positions (self st)) symbol = true) as ->
    by (unfold dict_contains; rewrite Hget; reflexivity).
  destruct (Rgt_dec score 70) as [Hgt|_]; [exfalso; lra|].
  destruct (Rlt_dec score 30) as [_|Hn]; [|exfalso; lra]. simpl.
  rewrite (positions_getitem_spec symbol _ st Hget). unfold getitem_num.
  rewrite buy_trade_quantity. unfold ret. cbv beta iota. rewrite E.
  split; [reflexivity|]. simpl. split; [reflexivity|].
  intros Hz. apply (Hdel _ entry Hget); [reflexivity | exact Hz].
Qed.

End BotLoopFacts.

Lemma trade_on_score_idle_witness :
  trade_on_score demo_env "BTCUSDT" 95 two_open = (Ok tt, two_open).
Proof.
  apply trade_on_score_idle. left. split; [reflexivity|].
  unfold SELL_THRESHOLD. lra.
Defined.

Lemma trade_on_score_buys_witness :
  exists price t st',
    trade_on_score demo_env "ETHUSDT" 71 two_open = (Ok tt, st') /\
    dict_get (positions (self st')) "ETHUSDT"
    = Some (buy_trade "ETHUSDT" (1 / 100) price t "AI Signal") /\
    trades (self st')
    = trades (self two_open) ++ [buy_trade "ETHUSDT" (1 / 100) price t "AI Signal"].
Proof.
  apply trade_on_score_buys; [reflexivity|].
  unfold BUY_THRESHOLD. lra.
Defined.

Lemma trade_on_score_sells_witness :
  exists price t st',
    trade_on_score demo_env "BTCUSDT" 12 two_open = (Ok tt, st') /\
    trades (self st')
    = trades (self two_open) ++ [sell_trade "BTCUSDT" 1 price t "AI Signal"] /\
    (100 <> 0 ->
     positions (self st') = dict_del (positions (self two_open)) "BTCUSDT").
Proof.
  apply (trade_on_score_sells demo_env two_open "BTCUSDT" 12 1 100 0 "AI Signal").
  - reflexivity.
  - unfold SELL_THRESHOLD. lra.
Defined.

Section Symbols.

Lemma string_length_append (s1 s2 : string) :
  string_length (String.append s1 s2) = (string_length s1 + string_length s2)%nat.
Proof.
  unfold string_length. induction s1 as [|c s1 IH]; simpl; auto.
Qed.

Lemma string_length_prefix (s : string) :
  forall m, (m <= string_length s)%nat ->
    string_length (String.substring 0 m s) = m.
Proof.
  unfold string_length. induction s as [|c s IH]; intros [|m] Hm; simpl in *;
    try reflexivity; try lia.
  rewrite IH by lia. reflexivity.
Qed.

End Symbols.

(** X22.  For a coin name that does not end in USDT the loop scores the
    symbol it trades.  For a coin name that ends in USDT and has at least
    five characters it trades the name itself but strips five characters,
    not four, before the analysis: the symbol that is scored is never the
    symbol that is traded. *)
Theorem bot_loop_scored_symbol (coin : string) :
  (endswith coin "USDT" = false ->
   analyzed_symbol coin = usdt_symbol coin) /\
  (endswith coin "USDT" = true -> (5 <= string_length coin)%nat ->
   usdt_symbol coin = coin /\ analyzed_symbol coin <> usdt_symbol coin).
Proof.
  split.
  - intros Hno. unfold analyzed_symbol, analyze_argument. rewrite Hno. reflexivity.
  - intros Hyes Hlen.
    assert (usdt_symbol coin = coin) as Hsame
      by (unfold usdt_symbol; rewrite Hyes; reflexivity).
    split; [exact Hsame|]. rewrite Hsame.
    unfold analyzed_symbol, analyze_argument. rewrite Hyes.
    assert (string_length (drop_last 5 coin) = (string_length coin - 5)%nat) as Hdrop
      by (unfold drop_last; apply string_length_prefix; lia).
    intros Heq. apply (f_equal string_length) in Heq.
    unfold usdt_symbol in Heq.
    destruct (negb (endswith (drop_last 5 coin) "USDT")).
    + rewrite string_length_append, Hdrop in Heq.
      change (string_length "USDT") with 4%nat in Heq. lia.
    + rewrite Hdrop in Heq. lia.
Qed.

Lemma bot_loop_scored_symbol_witness :
  usdt_symbol "BTCUSDT" = "BTCUSDT"%string /\
  analyzed_symbol "BTCUSDT" <> usdt_symbol "BTCUSDT".
Proof.
  apply (bot_loop_scored_symbol "BTCUSDT").
  - reflexivity.
  - unfold string_length. simpl. lia.
Defined.

(** X23.  [get_trades] returns the most recent trades in the order of the
    log: what it returns is a suffix of the log, of length 50 or of the
    length of the log when that is smaller. *)
Theorem get_trades_most_recent (ex : OrderExecutor) :
  exists older,
    trades ex = older ++ get_trades ex /\
    length (get_trades ex) = Nat.min 50 (length (trades ex)).
Proof.
  unfold get_trades. exists (firstn (length (trades ex) - 50) (trades ex)).
  split.
  - unfold slice_last. change (50 =? 0)%nat with false. cbv iota.
    symmetry. apply firstn_skipn.
  - rewrite slice_last_length. reflexivity.
Qed.

(** With the default coin list the loop trades BTCUSDT on the score of
    BTUSDT. *)
Example analyzed_symbol_of_default_coin :
  analyzed_symbol "BTCUSDT" = "BTUSDT"%string /\
  analyzed_symbol "BTC" = "BTCUSDT"%string.
Proof. split; reflexivity. Qed.
